(** * MixHop-style graph convolution layers ([layers.py])

    A shallow embedding of the two layer classes of [layers.py],
    [SparseNGCNLayer] and [DenseNGCNLayer], together with the tensor
    primitives they call ([torch.max], [torch.mm], broadcasting [+],
    [torch.nn.functional.dropout], [torch.nn.functional.relu] and
    [torch_sparse.spmm]).

    Tensors hold scalars of an arbitrary type [S] with the operations of
    the class [Scalar]; the algebraic laws a statement relies on are
    named in that statement.  Exceptions are values of [result]. *)

From Stdlib Require Import ZArith QArith List Bool Lia Ring_theory.
From Stdlib Require String Ascii DecimalString DecimalZ DecimalPos.
Import ListNotations.

Set Implicit Arguments.
Local Open Scope nat_scope.

(** ** Exceptions *)

(** The kinds of failure the layers can meet: a shape or index that does
    not fit ([AssertionError], [IndexError] and [RuntimeError] of the
    tensor library), a rejected hyper-parameter ([ValueError]), and a
    device the library cannot place a tensor on ([RuntimeError]). *)
Inductive error : Type :=
| DimensionError
| ConfigError
| DeviceError.

Inductive result (A : Type) : Type :=
| Ok (a : A)
| Err (e : error).

Arguments Ok {A} a.
Arguments Err {A} e.

Definition bind {A B : Type} (r : result A) (k : A -> result B) : result B :=
  match r with
  | Ok a => k a
  | Err e => Err e
  end.

Notation "x <- r ;; k" := (bind r (fun x => k))
  (at level 61, r at next level, right associativity).

Definition is_ok {A : Type} (r : result A) : bool :=
  match r with
  | Ok _ => true
  | Err _ => false
  end.

(** Python's [range(n)]: empty for [n <= 0]. *)
Definition range (n : Z) : list Z :=
  map Z.of_nat (seq 0 (Z.to_nat n)).

(** Python's [str] of an integer: its decimal digits, after a minus sign
    when it is negative. *)
Definition str (n : Z) : String.string :=
  DecimalString.NilZero.string_of_int (Z.to_int n).

(** ** Scalars *)

Class Scalar (S : Type) : Type := {
  szero : S;
  sone : S;
  sadd : S -> S -> S;
  smul : S -> S -> S;
  sleb : S -> S -> bool
}.

#[export] Instance Z_Scalar : Scalar Z := {
  szero := 0%Z;
  sone := 1%Z;
  sadd := Z.add;
  smul := Z.mul;
  sleb := Z.leb
}.

(** ** Dense tensors of rank two *)

Module Torch.
Section Tensors.
Context {S : Type} `{Scalar S}.

(** A tensor carries its shape; [data] is the list of its rows. *)
Record Tensor : Type := mkTensor {
  shape0 : nat;
  shape1 : nat;
  data : list (list S)
}.

(** The [r] by [c] tensor whose entry at [(i, j)] is [f i j]. *)
Definition tabulate (r c : nat) (f : nat -> nat -> S) : Tensor :=
  mkTensor r c (map (fun i => map (fun j => f i j) (seq 0 c)) (seq 0 r)).

Definition get (t : Tensor) (i j : nat) : S :=
  nth j (nth i (data t) []) szero.

(** A tensor is well formed when its rows agree with its shape. *)
Definition wf (t : Tensor) : Prop :=
  t = tabulate (shape0 t) (shape1 t) (get t).

(** Sum of a list of scalars, accumulated from zero, left to right. *)
Definition ssum (l : list S) : S := fold_left sadd l szero.

(** [torch.Tensor(r, c)]: a fresh tensor; a negative size is refused.
    The contents are unspecified in the library and overwritten by the
    initialiser before any use; they are zero here. *)
Definition new_tensor (r c : Z) : result Tensor :=
  if ((r <? 0) || (c <? 0))%Z then Err DimensionError
  else Ok (tabulate (Z.to_nat r) (Z.to_nat c) (fun _ _ => szero)).

(** [t.to(device)]: the same tensor on [device].  The device string must
    not be empty and must name a device the library knows and the host
    offers, which [available] tells. *)
Definition to (available : String.string -> bool) (t : Tensor)
    (device : String.string) : result Tensor :=
  if String.eqb device String.EmptyString then Err DeviceError
  else if available device then Ok t
  else Err DeviceError.

(** [torch.nn.init.xavier_uniform_]: fills the tensor with fresh draws.
    [fan_in] and [fan_out] of a rank-two tensor are its two sizes, and the
    bound [sqrt (6 / (fan_in + fan_out))] divides by their sum.  The draws
    come from the generator, here the function [draw]. *)
Definition xavier_uniform_ (draw : nat -> nat -> S) (t : Tensor) : result Tensor :=
  let fan_in := shape1 t in
  let fan_out := shape0 t in
  if fan_in + fan_out =? 0 then Err DimensionError
  else Ok (tabulate (shape0 t) (shape1 t) draw).

(** [torch.max(index, dim=1)] of a [2 x nnz] index tensor, given as the
    list of its columns: the largest first and the largest second
    component.  An empty reduction is refused. *)
Definition max_dim1 (index : list (Z * Z)) : result (Z * Z) :=
  match index with
  | [] => Err DimensionError
  | e :: rest =>
      Ok (fold_left (fun acc x => (Z.max (fst acc) (fst x), Z.max (snd acc) (snd x)))
                    rest e)
  end.

(** [torch.mm]. *)
Definition mm_entries (a b : Tensor) : Tensor :=
  tabulate (shape0 a) (shape1 b)
    (fun i k => ssum (map (fun j => smul (get a i j) (get b j k)) (seq 0 (shape1 a)))).

Definition mm (a b : Tensor) : result Tensor :=
  if shape1 a =? shape0 b then Ok (mm_entries a b) else Err DimensionError.

(** Broadcasting of one dimension: equal sizes, or one of them is 1. *)
Definition broadcast_dim (a b : nat) : option nat :=
  if a =? b then Some a
  else if a =? 1 then Some b
  else if b =? 1 then Some a
  else None.

(** [x + y] with broadcasting. *)
Definition add (x y : Tensor) : result Tensor :=
  match broadcast_dim (shape0 x) (shape0 y), broadcast_dim (shape1 x) (shape1 y) with
  | Some r, Some c =>
      Ok (tabulate r c (fun i j =>
            sadd (get x (if shape0 x =? 1 then 0 else i) (if shape1 x =? 1 then 0 else j))
                 (get y (if shape0 y =? 1 then 0 else i) (if shape1 y =? 1 then 0 else j))))
  | _, _ => Err DimensionError
  end.

(** [torch.nn.functional.relu]: the entrywise maximum with zero. *)
Definition relu (x : Tensor) : Tensor :=
  tabulate (shape0 x) (shape1 x)
    (fun i j => if sleb (get x i j) szero then szero else get x i j).

(** [torch.nn.functional.dropout].  The rate is checked on every call,
    whatever the mode.  In training mode each entry is multiplied by the
    factor the generator drew for its position ([0] for a dropped entry,
    [1 / (1 - p)] for a kept one), here [rng i j]; otherwise the input is
    returned as it is. *)
Definition dropout (x : Tensor) (p : Q) (training : bool)
    (rng : nat -> nat -> S) : result Tensor :=
  if (negb (Qle_bool 0 p) || negb (Qle_bool p 1))%bool then Err ConfigError
  else if training
       then Ok (tabulate (shape0 x) (shape1 x) (fun i j => smul (get x i j) (rng i j)))
       else Ok x.

End Tensors.
Arguments Tensor S : clear implicits.
End Torch.

(** ** The sparse product of [torch_sparse] *)

Module TorchSparse.
Import Torch.
Section Spmm.
Context {S : Type} `{Scalar S}.

(** [matrix.index_select(-2, col)]: the rows of [matrix] named by [col],
    one per entry; an index outside the rows of [matrix] is refused. *)
Definition index_select (matrix : Tensor S) (col : list Z) : result (Tensor S) :=
  if forallb (fun c => (0 <=? c)%Z && (c <? Z.of_nat (shape0 matrix))%Z) col
  then Ok (tabulate (length col) (shape1 matrix)
             (fun e j => get matrix (Z.to_nat (nth e col 0%Z)) j))
  else Err DimensionError.

(** [out * value.unsqueeze(-1)]: row [e] is scaled by the [e]-th value.
    The rows of [out] and the values are broadcast against each other: a
    single row, or a single value, is used for every [e]. *)
Definition mul_values (out : Tensor S) (value : list S) : result (Tensor S) :=
  match broadcast_dim (shape0 out) (length value) with
  | Some r =>
      Ok (tabulate r (shape1 out)
            (fun e j => smul (get out (if shape0 out =? 1 then 0 else e) j)
                             (nth (if length value =? 1 then 0 else e) value szero)))
  | None => Err DimensionError
  end.

(** [scatter_add(src, index, dim=-2, dim_size=m)]: the index is expanded
    to the shape of [src] (it has one element per row of [src], or a single
    element used for every row); starting from [m] rows of zeros, row [e]
    of [src] is added to the row its index names, in the order of the
    rows.  A negative [m] is refused, and so is an element of the expanded
    index outside [0, m); an expanded index without elements ([src] has no
    row or no column) is not looked at. *)
Definition scatter_add (src : Tensor S) (index : list Z) (dim_size : Z) : result (Tensor S) :=
  if ((length index =? shape0 src) || (length index =? 1)) && (0 <=? dim_size)%Z
  then
    let expanded := fun e => nth (if length index =? 1 then 0 else e) index 0%Z in
    if (shape1 src =? 0)
       || forallb (fun e => (0 <=? expanded e)%Z && (expanded e <? dim_size)%Z)
                  (seq 0 (shape0 src))
    then Ok (tabulate (Z.to_nat dim_size) (shape1 src)
               (fun i j =>
                  ssum (map (fun e => get src e j)
                            (filter (fun e => (expanded e =? Z.of_nat i)%Z)
                                    (seq 0 (shape0 src))))))
    else Err DimensionError
  else Err DimensionError.

(** [spmm(index, value, m, n, matrix)]: the product of the sparse [m] by
    [n] matrix with entries [(index, value)] and the dense [matrix].  It
    starts with [assert n == matrix.size(-2)]. *)
Definition spmm (index : list (Z * Z)) (value : list S) (m n : Z)
    (matrix : Tensor S) : result (Tensor S) :=
  if (n =? Z.of_nat (shape0 matrix))%Z then
    let row := map fst index in
    let col := map snd index in
    out <- index_select matrix col ;;
    out <- mul_values out value ;;
    scatter_add out row m
  else Err DimensionError.

End Spmm.
End TorchSparse.

(** ** Sparse matrices as the layers receive them *)

(** The dictionary with the keys ["indices"] (the [(row, column)] pairs of
    the entries) and ["values"] (their weights). *)
Record SparseMatrix (S : Type) : Type := mkSparse {
  indices : list (Z * Z);
  values : list S
}.

(** ** [class SparseNGCNLayer] *)

Module SparseNGCNLayer.
Import Torch TorchSparse.
Section Layer.
Context {S : Type} `{Scalar S}.

Record layer : Type := mkLayer {
  in_channels : Z;
  out_channels : Z;
  iterations : Z;
  dropout_rate : Q;
  device : String.string;
  weight_matrix : Tensor S;
  bias : Tensor S;
  training : bool
}.

(** [define_parameters]: the weight matrix and the bias row, each moved
    to the device of the layer. *)
Definition define_parameters (available : String.string -> bool)
    (in_channels out_channels : Z) (device : String.string)
    : result (Tensor S * Tensor S) :=
  weight_matrix <- new_tensor in_channels out_channels ;;
  weight_matrix <- to available weight_matrix device ;;
  bias <- new_tensor 1 out_channels ;;
  bias <- to available bias device ;;
  Ok (weight_matrix, bias).

(** [init_parameters]: both are filled by the initialiser, the weight
    matrix first. *)
Definition init_parameters (draw_weight draw_bias : nat -> nat -> S)
    (params : Tensor S * Tensor S) : result (Tensor S * Tensor S) :=
  weight_matrix <- xavier_uniform_ draw_weight (fst params) ;;
  bias <- xavier_uniform_ draw_bias (snd params) ;;
  Ok (weight_matrix, bias).

(** [__init__].  A new module is in training mode. *)
Definition init (available : String.string -> bool)
    (in_channels out_channels iterations : Z) (dropout_rate : Q)
    (device : String.string) (draw_weight draw_bias : nat -> nat -> S) : result layer :=
  params <- define_parameters available in_channels out_channels device ;;
  params <- init_parameters draw_weight draw_bias params ;;
  Ok (mkLayer in_channels out_channels iterations dropout_rate device
              (fst params) (snd params) true).

(** [forward]. *)
Definition forward (self : layer) (rng : nat -> nat -> S)
    (normalized_adjacency_matrix features : SparseMatrix S) : result (Tensor S) :=
  feature_count <- max_dim1 (indices features) ;;
  let feature_count := ((fst feature_count + 1)%Z, (snd feature_count + 1)%Z) in
  base_features <- spmm (indices features) (values features)
                        (fst feature_count) (snd feature_count)
                        (weight_matrix self) ;;
  base_features <- add base_features (bias self) ;;
  base_features <- dropout base_features (dropout_rate self) (training self) rng ;;
  let base_features := relu base_features in
  fold_left
    (fun acc _ =>
       base_features <- acc ;;
       spmm (indices normalized_adjacency_matrix)
            (values normalized_adjacency_matrix)
            (Z.of_nat (shape0 base_features))
            (Z.of_nat (shape0 base_features))
            base_features)
    (range (iterations self - 1))
    (Ok base_features).

Import String.

(** [__repr__]. *)
Definition repr (self : layer) : string :=
  ((((("SparseNGCNLayer" ++ " (") ++ str (in_channels self)) ++ " -> ")
    ++ str (out_channels self)) ++ ")")%string.

End Layer.
Arguments layer S : clear implicits.
End SparseNGCNLayer.

(** ** [class DenseNGCNLayer] *)

Module DenseNGCNLayer.
Import Torch TorchSparse.
Section Layer.
Context {S : Type} `{Scalar S}.

Record layer : Type := mkLayer {
  in_channels : Z;
  out_channels : Z;
  iterations : Z;
  dropout_rate : Q;
  device : String.string;
  weight_matrix : Tensor S;
  bias : Tensor S;
  training : bool
}.

Definition define_parameters (available : String.string -> bool)
    (in_channels out_channels : Z) (device : String.string)
    : result (Tensor S * Tensor S) :=
  weight_matrix <- new_tensor in_channels out_channels ;;
  weight_matrix <- to available weight_matrix device ;;
  bias <- new_tensor 1 out_channels ;;
  bias <- to available bias device ;;
  Ok (weight_matrix, bias).

Definition init_parameters (draw_weight draw_bias : nat -> nat -> S)
    (params : Tensor S * Tensor S) : result (Tensor S * Tensor S) :=
  weight_matrix <- xavier_uniform_ draw_weight (fst params) ;;
  bias <- xavier_uniform_ draw_bias (snd params) ;;
  Ok (weight_matrix, bias).

Definition init (available : String.string -> bool)
    (in_channels out_channels iterations : Z) (dropout_rate : Q)
    (device : String.string) (draw_weight draw_bias : nat -> nat -> S) : result layer :=
  params <- define_parameters available in_channels out_channels device ;;
  params <- init_parameters draw_weight draw_bias params ;;
  Ok (mkLayer in_channels out_channels iterations dropout_rate device
              (fst params) (snd params) true).

Definition forward (self : layer) (rng : nat -> nat -> S)
    (normalized_adjacency_matrix : SparseMatrix S) (features : Tensor S)
    : result (Tensor S) :=
  base_features <- mm features (weight_matrix self) ;;
  base_features <- dropout base_features (dropout_rate self) (training self) rng ;;
  base_features <-
    fold_left
      (fun acc _ =>
         base_features <- acc ;;
         spmm (indices normalized_adjacency_matrix)
              (values normalized_adjacency_matrix)
              (Z.of_nat (shape0 base_features))
              (Z.of_nat (shape0 base_features))
              base_features)
      (range (iterations self - 1))
      (Ok base_features) ;;
  add base_features (bias self).

Import String.

Definition repr (self : layer) : string :=
  ((((("DenseNGCNLayer" ++ " (") ++ str (in_channels self)) ++ " -> ")
    ++ str (out_channels self)) ++ ")")%string.

End Layer.
Arguments layer S : clear implicits.
End DenseNGCNLayer.

(** ** Notions used to state the properties of the layers *)

Section Specification.
Import Torch TorchSparse.
Context {S : Type} `{Scalar S}.

(** The laws of a commutative semiring, for the statements that compare
    the sparse product with the product of dense matrices. *)
Definition ScalarLaws : Prop :=
  semi_ring_theory szero sone sadd smul (@eq S).

(** [hops k adj x]: [x] multiplied on the left by the adjacency matrix, [k]
    times; every product takes both extents of the adjacency from the rows
    of the current matrix. *)
Fixpoint hops (k : nat) (adj : SparseMatrix S) (x : Tensor S) : result (Tensor S) :=
  match k with
  | 0 => Ok x
  | Datatypes.S k' =>
      y <- spmm (indices adj) (values adj)
                (Z.of_nat (shape0 x)) (Z.of_nat (shape0 x)) x ;;
      hops k' adj y
  end.

(** The entries of a sparse matrix lie inside an [m] by [n] matrix, and
    there is one value per entry. *)
Definition valid_sparse (a : SparseMatrix S) (m n : nat) : bool :=
  (length (values a) =? length (indices a))
  && forallb (fun e => (0 <=? fst e)%Z && (fst e <? Z.of_nat m)%Z
                       && (0 <=? snd e)%Z && (snd e <? Z.of_nat n)%Z)
             (indices a).

(** The dense form of a sparse matrix: the entry at [(i, j)] is the sum of
    the values stored for [(i, j)]. *)
Definition to_dense (a : SparseMatrix S) (m n : nat) : Tensor S :=
  tabulate m n
    (fun i j =>
       ssum (map (fun e => nth e (values a) szero)
                 (filter (fun e => (fst (nth e (indices a) (0, 0)%Z) =? Z.of_nat i)%Z
                                   && (snd (nth e (indices a) (0, 0)%Z) =? Z.of_nat j)%Z)
                         (seq 0 (length (indices a)))))).

(** The identity matrix, dense and sparse. *)
Definition eye (n : nat) : Tensor S :=
  tabulate n n (fun i j => if i =? j then sone else szero).


(** Powers of a square dense matrix. *)
Fixpoint mpow (a : Tensor S) (k : nat) : Tensor S :=
  match k with
  | 0 => eye (shape0 a)
  | Datatypes.S k' => mm_entries (mpow a k') a
  end.

(** What the sparse layer holds when it enters its loop: the projection of
    the features, plus the bias, after dropout, after ReLU. *)
Definition sparse_before_loop (self : SparseNGCNLayer.layer S)
    (rng : nat -> nat -> S) (features : SparseMatrix S) : result (Tensor S) :=
  fc <- max_dim1 (indices features) ;;
  p <- spmm (indices features) (values features) (fst fc + 1)%Z (snd fc + 1)%Z
            (SparseNGCNLayer.weight_matrix self) ;;
  b <- add p (SparseNGCNLayer.bias self) ;;
  d <- dropout b (SparseNGCNLayer.dropout_rate self)
               (SparseNGCNLayer.training self) rng ;;
  Ok (relu d).

(** What the dense layer holds when it enters its loop: the projection of
    the features after dropout. *)
Definition dense_before_loop (self : DenseNGCNLayer.layer S)
    (rng : nat -> nat -> S) (features : Tensor S) : result (Tensor S) :=
  p <- mm features (DenseNGCNLayer.weight_matrix self) ;;
  dropout p (DenseNGCNLayer.dropout_rate self) (DenseNGCNLayer.training self) rng.

(** The same layer with another iteration count. *)
Definition sparse_with_iterations (self : SparseNGCNLayer.layer S) (k : Z)
    : SparseNGCNLayer.layer S :=
  SparseNGCNLayer.mkLayer
    (SparseNGCNLayer.in_channels self) (SparseNGCNLayer.out_channels self) k
    (SparseNGCNLayer.dropout_rate self) (SparseNGCNLayer.device self)
    (SparseNGCNLayer.weight_matrix self) (SparseNGCNLayer.bias self)
    (SparseNGCNLayer.training self).

Definition dense_with_iterations (self : DenseNGCNLayer.layer S) (k : Z)
    : DenseNGCNLayer.layer S :=
  DenseNGCNLayer.mkLayer
    (DenseNGCNLayer.in_channels self) (DenseNGCNLayer.out_channels self) k
    (DenseNGCNLayer.dropout_rate self) (DenseNGCNLayer.device self)
    (DenseNGCNLayer.weight_matrix self) (DenseNGCNLayer.bias self)
    (DenseNGCNLayer.training self).

(** The parameters have the shapes the constructor gives them. *)
Definition sparse_params_shaped (self : SparseNGCNLayer.layer S) : Prop :=
  shape0 (SparseNGCNLayer.weight_matrix self) = Z.to_nat (SparseNGCNLayer.in_channels self)
  /\ shape1 (SparseNGCNLayer.weight_matrix self) = Z.to_nat (SparseNGCNLayer.out_channels self)
  /\ shape0 (SparseNGCNLayer.bias self) = 1
  /\ shape1 (SparseNGCNLayer.bias self) = Z.to_nat (SparseNGCNLayer.out_channels self).

Definition dense_params_shaped (self : DenseNGCNLayer.layer S) : Prop :=
  shape0 (DenseNGCNLayer.weight_matrix self) = Z.to_nat (DenseNGCNLayer.in_channels self)
  /\ shape1 (DenseNGCNLayer.weight_matrix self) = Z.to_nat (DenseNGCNLayer.out_channels self)
  /\ shape0 (DenseNGCNLayer.bias self) = 1
  /\ shape1 (DenseNGCNLayer.bias self) = Z.to_nat (DenseNGCNLayer.out_channels self).

End Specification.

(** ** Notions used to state the behaviour at the edges *)

Section FurtherNotions.
Import Torch TorchSparse.
Context {S : Type} `{Scalar S}.

(** The rates [torch.nn.functional.dropout] accepts. *)
Definition rate_accepted (p : Q) : bool :=
  Qle_bool 0 p && Qle_bool p 1.

(** The devices a tensor can be moved to. *)
Definition device_accepted (available : String.string -> bool)
    (device : String.string) : bool :=
  negb (String.eqb device String.EmptyString) && available device.

(** The channel counts for which the parameters can be allocated and
    initialised. *)
Definition channels_accepted (inc outc : Z) : bool :=
  (0 <=? inc)%Z && (0 <=? outc)%Z && (0 <? inc + outc)%Z.

(** What the sparse layer holds when it calls dropout: the projection of
    the features plus the bias. *)
Definition sparse_projection (self : SparseNGCNLayer.layer S)
    (features : SparseMatrix S) : result (Tensor S) :=
  fc <- max_dim1 (indices features) ;;
  p <- spmm (indices features) (values features) (fst fc + 1)%Z (snd fc + 1)%Z
            (SparseNGCNLayer.weight_matrix self) ;;
  add p (SparseNGCNLayer.bias self).

(** What a sparse product asks of its sparse matrix: values and entries
    that broadcast against each other, column indices inside the [cols]
    rows of the dense matrix and, when the dense matrix has columns and
    there is a value, row indices inside the [rows] rows of the result. *)
Definition entries_fit (a : SparseMatrix S) (rows cols width : nat) : Prop :=
  broadcast_dim (length (indices a)) (length (values a)) <> None
  /\ Forall (fun e => (0 <= snd e < Z.of_nat cols)%Z) (indices a)
  /\ (width <> 0 -> values a <> [] ->
      Forall (fun e => (0 <= fst e < Z.of_nat rows)%Z) (indices a)).

(** The matrix of zeros. *)
Definition zeros (r c : nat) : Tensor S :=
  tabulate r c (fun _ _ => szero).

(** A scalar is not below zero. *)
Definition nonneg (a : S) : Prop := sleb szero a = true.

(** What the order of the scalars has to satisfy for the statements on
    signs. *)
Definition OrderLaws : Prop :=
  nonneg szero
  /\ (forall a, sleb a szero = false -> nonneg a)
  /\ (forall a b, nonneg a -> nonneg b -> nonneg (sadd a b))
  /\ (forall a b, nonneg a -> nonneg b -> nonneg (smul a b)).

End FurtherNotions.

(** The character [c] occurs in the string [s]. *)
Fixpoint occurs (c : Ascii.ascii) (s : String.string) : bool :=
  match s with
  | String.EmptyString => false
  | String.String a s' => Ascii.eqb a c || occurs c s'
  end.

(** ** Sample data over the integers *)

Module Sample.
Import Torch.
Import String.
Local Open Scope Z_scope.

Definition W : Tensor Z := mkTensor 3 2 [[1; 2]; [3; -4]; [5; 6]].

Definition b : Tensor Z := mkTensor 1 2 [[10; -20]].

Definition device : String.string := "cpu"%string.

(** A host that offers the processor only. *)
Definition available (d : String.string) : bool := String.eqb d "cpu"%string.

Definition sparse_layer (k : Z) (p : Q) (training : bool) : SparseNGCNLayer.layer Z :=
  SparseNGCNLayer.mkLayer 3 2 k p device W b training.

Definition dense_layer (k : Z) (p : Q) (training : bool) : DenseNGCNLayer.layer Z :=
  DenseNGCNLayer.mkLayer 3 2 k p device W b training.

(** Four nodes with three features, in sparse and in dense form. *)
Definition features : SparseMatrix Z :=
  mkSparse [(0, 0); (1, 1); (2, 2); (3, 0)] [1; 1; 1; 2].

Definition features_dense : Tensor Z :=
  mkTensor 4 3 [[1; 0; 0]; [0; 1; 0]; [0; 0; 1]; [2; 0; 0]].

(** The same nodes when no feature falls in the last column. *)
Definition features_short : SparseMatrix Z :=
  mkSparse [(0, 0); (1, 1); (2, 1); (3, 0)] [1; 1; 1; 2].

Definition adjacency : SparseMatrix Z :=
  mkSparse [(0, 1); (1, 0); (2, 3); (3, 2); (0, 0)] [1; 1; 1; 1; 1].

(** Dropout factors for the rate one half. *)
Definition rng (i j : nat) : Z := if Nat.even (i + j) then 2 else 0.

Definition rng' (i j : nat) : Z := if Nat.even (i + j) then 0 else 2.

Definition draw_weight (i j : nat) : Z := Z.of_nat (i + j) - 2.

Definition draw_bias (i j : nat) : Z := Z.of_nat j - 1.

(** A graph without edges. *)
Definition no_edges : SparseMatrix Z := mkSparse [] [].

(** Features of four nodes of which the last has no entry. *)
Definition features_three_rows : SparseMatrix Z :=
  mkSparse [(0, 0); (1, 1); (2, 2)] [1; 1; 1].

(** Features in which node [1] has no entry. *)
Definition features_gap : SparseMatrix Z :=
  mkSparse [(0, 0); (2, 2); (3, 1)] [1; 1; 1].

End Sample.

(** * Properties *)

Unset Implicit Arguments.

(** ** The error monad and [range] *)

Lemma bind_assoc (A B C : Type) (r : result A) (f : A -> result B) (g : B -> result C) :
  bind (bind r f) g = bind r (fun a => bind (f a) g).
Proof. destruct r; reflexivity. Qed.

Lemma bind_Ok_r (A : Type) (r : result A) : bind r (fun a => Ok a) = r.
Proof. destruct r; reflexivity. Qed.

Lemma range_length (n : Z) : length (range n) = Z.to_nat n.
Proof. unfold range. rewrite length_map, length_seq. reflexivity. Qed.

Lemma range_nonpos (n : Z) : (n <= 0)%Z -> range n = [].
Proof.
  intros Hn. unfold range.
  replace (Z.to_nat n) with 0 by lia. reflexivity.
Qed.

(** A [for] loop whose body does not read its counter, run on a [result]:
    an error stops the work, a value goes through the body once per
    element. *)
Lemma loop_Err (A B : Type) (step : A -> result A) (l : list B) (e : error) :
  fold_left (fun acc _ => x <- acc ;; step x) l (Err e) = Err e.
Proof. induction l as [|b l IH]; simpl; auto. Qed.

Section Basics.
Import Torch TorchSparse.
Context {S : Type} `{Scalar S}.

Lemma loop_hops (B : Type) (adj : SparseMatrix S) (l : list B) (x : Tensor S) :
  fold_left
    (fun acc _ =>
       base_features <- acc ;;
       spmm (indices adj) (values adj)
            (Z.of_nat (shape0 base_features)) (Z.of_nat (shape0 base_features))
            base_features)
    l (Ok x)
  = hops (length l) adj x.
Proof.
  revert x. induction l as [|b l IH]; intros x; simpl; [reflexivity|].
  destruct (spmm (indices adj) (values adj) (Z.of_nat (shape0 x))
                 (Z.of_nat (shape0 x)) x) as [y|e]; simpl.
  - apply IH.
  - apply (loop_Err _ _ (fun b0 : Tensor S =>
       spmm (indices adj) (values adj) (Z.of_nat (shape0 b0)) (Z.of_nat (shape0 b0)) b0)).
Qed.

(** ** Tensors built entry by entry *)

Lemma nth_map_seq (A : Type) (g : nat -> A) (n i : nat) (d : A) :
  i < n -> nth i (map g (seq 0 n)) d = g i.
Proof.
  intros Hi.
  rewrite (nth_indep _ d (g 0)) by (rewrite length_map, length_seq; exact Hi).
  rewrite map_nth, seq_nth by exact Hi. reflexivity.
Qed.

Lemma get_tabulate (r c : nat) (f : nat -> nat -> S) (i j : nat) :
  i < r -> j < c -> get (tabulate r c f) i j = f i j.
Proof.
  intros Hi Hj. unfold get, tabulate; simpl.
  rewrite nth_map_seq by exact Hi.
  apply nth_map_seq; exact Hj.
Qed.

Lemma tabulate_ext (r c : nat) (f g : nat -> nat -> S) :
  (forall i j, i < r -> j < c -> f i j = g i j) ->
  tabulate r c f = tabulate r c g.
Proof.
  intros Hfg. unfold tabulate. f_equal.
  apply map_ext_in. intros i Hi. apply in_seq in Hi.
  apply map_ext_in. intros j Hj. apply in_seq in Hj.
  apply Hfg; lia.
Qed.

Lemma wf_tabulate (r c : nat) (f : nat -> nat -> S) : wf (tabulate r c f).
Proof.
  unfold wf. simpl. apply tabulate_ext.
  intros i j Hi Hj. symmetry. apply get_tabulate; assumption.
Qed.

End Basics.

(** ** Sums over a commutative semiring *)

Section Sums.
Import Torch TorchSparse.
Context {S : Type} `{Scalar S}.
Hypothesis SR : ScalarLaws.

Lemma sadd_0_l (x : S) : sadd szero x = x.
Proof. apply (SRadd_0_l SR). Qed.

Lemma sadd_0_r (x : S) : sadd x szero = x.
Proof. rewrite (SRadd_comm SR). apply sadd_0_l. Qed.

Lemma smul_0_l (x : S) : smul szero x = szero.
Proof. apply (SRmul_0_l SR). Qed.

Lemma smul_1_r (x : S) : smul x sone = x.
Proof. rewrite (SRmul_comm SR). apply (SRmul_1_l SR). Qed.

Lemma fold_left_sadd (l : list S) (a : S) :
  fold_left sadd l a = sadd a (ssum l).
Proof.
  unfold ssum. revert a. induction l as [|b l IH]; intros a; simpl.
  - symmetry. apply sadd_0_r.
  - rewrite IH, (IH (sadd szero b)), sadd_0_l. symmetry. apply (SRadd_assoc SR).
Qed.

Lemma ssum_cons (a : S) (l : list S) : ssum (a :: l) = sadd a (ssum l).
Proof.
  unfold ssum at 1. simpl. rewrite fold_left_sadd, sadd_0_l. reflexivity.
Qed.

Lemma ssum_nil : ssum [] = szero.
Proof. reflexivity. Qed.

Lemma ssum_map_zero (A : Type) (l : list A) :
  ssum (map (fun _ => szero) l) = szero.
Proof.
  induction l as [|a l IH]; simpl; [reflexivity|].
  rewrite ssum_cons, IH. apply sadd_0_l.
Qed.

Lemma ssum_map_add (A : Type) (f g : A -> S) (l : list A) :
  ssum (map (fun a => sadd (f a) (g a)) l)
  = sadd (ssum (map f l)) (ssum (map g l)).
Proof.
  induction l as [|a l IH]; simpl.
  - rewrite ssum_nil. symmetry. apply sadd_0_l.
  - rewrite !ssum_cons, IH.
    rewrite <- !(SRadd_assoc SR). f_equal.
    rewrite !(SRadd_assoc SR). f_equal. apply (SRadd_comm SR).
Qed.

Lemma ssum_map_mul_r (A : Type) (f : A -> S) (x : S) (l : list A) :
  ssum (map (fun a => smul (f a) x) l) = smul (ssum (map f l)) x.
Proof.
  induction l as [|a l IH]; simpl.
  - rewrite ssum_nil. symmetry. apply smul_0_l.
  - rewrite !ssum_cons, IH. symmetry. apply (SRdistr_l SR).
Qed.

Lemma ssum_map_mul_l (A : Type) (f : A -> S) (x : S) (l : list A) :
  ssum (map (fun a => smul x (f a)) l) = smul x (ssum (map f l)).
Proof.
  rewrite (SRmul_comm SR), <- ssum_map_mul_r.
  f_equal. apply map_ext. intros a. apply (SRmul_comm SR).
Qed.

Lemma ssum_swap (A B : Type) (F : A -> B -> S) (la : list A) (lb : list B) :
  ssum (map (fun a => ssum (map (fun b => F a b) lb)) la)
  = ssum (map (fun b => ssum (map (fun a => F a b) la)) lb).
Proof.
  induction la as [|a la IH]; simpl.
  - rewrite ssum_nil. symmetry. apply ssum_map_zero.
  - rewrite ssum_cons, IH, <- ssum_map_add.
    f_equal. apply map_ext. intros b. symmetry. apply ssum_cons.
Qed.

Lemma ssum_filter (A : Type) (p : A -> bool) (f : A -> S) (l : list A) :
  ssum (map f (filter p l))
  = ssum (map (fun a => if p a then f a else szero) l).
Proof.
  induction l as [|a l IH]; simpl; [reflexivity|].
  destruct (p a); simpl; rewrite !ssum_cons, IH; [reflexivity|].
  symmetry. apply sadd_0_l.
Qed.

(** A sum whose only non-zero term sits at [c]. *)
Lemma ssum_point (c : nat) (g : nat -> S) (l : list nat) :
  NoDup l -> In c l ->
  ssum (map (fun j => if j =? c then g j else szero) l) = g c.
Proof.
  induction l as [|a l IH]; intros Hnd Hin; [contradiction|].
  inversion Hnd as [|a' l' Hna Hnd']; subst.
  simpl. rewrite ssum_cons.
  destruct (Nat.eqb_spec a c) as [->|Hne].
  - replace (map (fun j => if j =? c then g j else szero) l)
      with (map (fun _ : nat => szero) l).
    + rewrite ssum_map_zero. apply sadd_0_r.
    + apply map_ext_in. intros j Hj.
      destruct (Nat.eqb_spec j c) as [->|]; [contradiction|reflexivity].
  - rewrite sadd_0_l. apply IH; [assumption|].
    destruct Hin as [Heq|Hin]; [contradiction|assumption].
Qed.

End Sums.

(** ** The sparse product *)

Section SparseProduct.
Import Torch TorchSparse.
Context {S : Type} `{Scalar S}.

Lemma nth_map_fst (l : list (Z * Z)) (e : nat) :
  nth e (map fst l) 0%Z = fst (nth e l (0, 0)%Z).
Proof. change 0%Z with (fst (0, 0)%Z) at 1. apply map_nth. Qed.

Lemma nth_map_snd (l : list (Z * Z)) (e : nat) :
  nth e (map snd l) 0%Z = snd (nth e l (0, 0)%Z).
Proof. change 0%Z with (snd (0, 0)%Z) at 1. apply map_nth. Qed.

Lemma broadcast_index_lt (a b r e : nat) :
  broadcast_dim a b = Some r -> e < r ->
  (if a =? 1 then 0 else e) < a.
Proof.
  unfold broadcast_dim.
  destruct (Nat.eqb_spec a b), (Nat.eqb_spec a 1), (Nat.eqb_spec b 1);
    intros [= <-] He; lia.
Qed.

(** What a sparse product that succeeds was given, and what it returns:
    the entry at [(i, j)] adds, over the broadcast entries [e] whose row
    index is [i], the entry [(col e, j)] of the dense matrix times the
    value of [e]. *)
Lemma spmm_Ok_inv (index : list (Z * Z)) (value : list S) (m n : Z)
    (x y : Tensor S) :
  spmm index value m n x = Ok y ->
  exists r,
    n = Z.of_nat (shape0 x)
    /\ forallb (fun c => (0 <=? c)%Z && (c <? Z.of_nat (shape0 x))%Z) (map snd index) = true
    /\ broadcast_dim (length index) (length value) = Some r
    /\ (0 <= m)%Z
    /\ (shape1 x = 0
        \/ forallb (fun e => (0 <=? nth (if (length index =? 1)%nat then 0%nat else e)
                                        (map fst index) 0)%Z
                             && (nth (if (length index =? 1)%nat then 0%nat else e)
                                     (map fst index) 0 <? m)%Z)
                   (seq 0 r) = true)
    /\ y = tabulate (Z.to_nat m) (shape1 x)
             (fun i j =>
                ssum (map (fun e =>
                             smul (get x (Z.to_nat (nth (if (length index =? 1)%nat then 0%nat else e)
                                                        (map snd index) 0%Z)) j)
                                  (nth (if (length value =? 1)%nat then 0%nat else e) value szero))
                          (filter (fun e => (nth (if (length index =? 1)%nat then 0%nat else e)
                                                 (map fst index) 0%Z =? Z.of_nat i)%Z)
                                  (seq 0 r)))).
Proof.
  unfold spmm, index_select, mul_values, scatter_add.
  destruct (Z.eqb_spec n (Z.of_nat (shape0 x))) as [Hn|]; [|discriminate].
  destruct (forallb _ (map snd index)) eqn:Hcol; [|discriminate].
  cbn [bind shape0 shape1 tabulate]. rewrite !length_map.
  destruct (broadcast_dim (length index) (length value)) as [r|] eqn:Hr;
    [|discriminate].
  cbn [bind shape0 shape1 tabulate].
  destruct (((length index =? r) || (length index =? 1)) && (0 <=? m)%Z) eqn:Hm;
    [|discriminate].
  destruct ((shape1 x =? 0) || forallb _ (seq 0 r)) eqn:Hrow; [|discriminate].
  intros [= <-]. exists r.
  apply andb_true_iff in Hm. destruct Hm as [_ Hm]. apply Z.leb_le in Hm.
  split; [exact Hn|]. split; [reflexivity|]. split; [reflexivity|].
  split; [exact Hm|]. split.
  - apply orb_true_iff in Hrow. destruct Hrow as [Hd|Hrow].
    + left. apply Nat.eqb_eq. exact Hd.
    + right. exact Hrow.
  - apply tabulate_ext. intros i j Hi Hj. f_equal.
    apply map_ext_in. intros e He.
    apply filter_In in He. destruct He as [He _]. apply in_seq in He.
    rewrite get_tabulate by lia.
    rewrite get_tabulate; [reflexivity| |exact Hj].
    apply (broadcast_index_lt _ _ r e Hr). lia.
Qed.

(** The shape of a sparse product comes from its arguments [m] and
    [matrix], whatever the entries of the sparse matrix are. *)
Lemma spmm_shape (index : list (Z * Z)) (value : list S) (m n : Z)
    (x y : Tensor S) :
  spmm index value m n x = Ok y ->
  shape0 y = Z.to_nat m /\ shape1 y = shape1 x.
Proof.
  intros Hy. apply spmm_Ok_inv in Hy.
  destruct Hy as [r [_ [_ [_ [_ [_ ->]]]]]]. split; reflexivity.
Qed.

Lemma spmm_wf (index : list (Z * Z)) (value : list S) (m n : Z)
    (x y : Tensor S) :
  spmm index value m n x = Ok y -> wf y.
Proof.
  intros Hy. apply spmm_Ok_inv in Hy.
  destruct Hy as [r [_ [_ [_ [_ [_ ->]]]]]]. apply wf_tabulate.
Qed.

Lemma valid_sparse_spec (a : SparseMatrix S) (m n : nat) :
  valid_sparse a m n = true ->
  length (values a) = length (indices a)
  /\ forallb (fun c => (0 <=? c)%Z && (c <? Z.of_nat n)%Z) (map snd (indices a)) = true
  /\ forallb (fun r => (0 <=? r)%Z && (r <? Z.of_nat m)%Z) (map fst (indices a)) = true.
Proof.
  unfold valid_sparse. intros Hv.
  apply andb_true_iff in Hv. destruct Hv as [Hlen Hall].
  apply Nat.eqb_eq in Hlen. split; [exact Hlen|].
  rewrite forallb_forall in Hall.
  split; apply forallb_forall; intros z Hz; apply in_map_iff in Hz;
    destruct Hz as [e [<- He]]; specialize (Hall e He);
    repeat (apply andb_true_iff in Hall; destruct Hall as [Hall ?]);
    apply andb_true_iff; split; assumption.
Qed.

(** On a valid sparse matrix the product succeeds; its entry at [(i, k)]
    adds, over the entries [e] of row [i], the entry [(col e, k)] of the
    dense matrix times the value of [e]. *)
Lemma spmm_valid (a : SparseMatrix S) (m n : nat) (x : Tensor S) :
  valid_sparse a m n = true ->
  shape0 x = n ->
  spmm (indices a) (values a) (Z.of_nat m) (Z.of_nat n) x
  = Ok (tabulate m (shape1 x)
          (fun i k =>
             ssum (map (fun e => smul (get x (Z.to_nat (snd (nth e (indices a) (0, 0)%Z))) k)
                                      (nth e (values a) szero))
                       (filter (fun e => (fst (nth e (indices a) (0, 0)%Z) =? Z.of_nat i)%Z)
                               (seq 0 (length (indices a))))))).
Proof.
  intros Hv Hx. destruct (valid_sparse_spec _ _ _ Hv) as [Hlen [Hcol Hrow]].
  assert (Hsame : forall e, e < length (indices a) ->
                            (if length (indices a) =? 1 then 0 else e) = e).
  { intros e He. destruct (Nat.eqb_spec (length (indices a)) 1); lia. }
  unfold spmm, index_select, mul_values, scatter_add.
  rewrite Hx, Z.eqb_refl, Hcol.
  cbn [bind shape0 shape1 tabulate].
  rewrite !length_map, Hlen.
  replace (broadcast_dim (length (indices a)) (length (indices a)))
    with (Some (length (indices a)))
    by (unfold broadcast_dim; rewrite Nat.eqb_refl; reflexivity).
  cbn [bind shape0 shape1 tabulate].
  rewrite Nat.eqb_refl.
  replace (0 <=? Z.of_nat m)%Z with true by (symmetry; apply Z.leb_le; lia).
  cbn [andb orb].
  match goal with
  | |- (if (_ || ?b) then _ else _) = _ => replace b with true
  end.
  2:{ symmetry. apply forallb_forall. intros e He. apply in_seq in He.
      rewrite Hsame by lia.
      rewrite forallb_forall in Hrow. apply Hrow.
      apply nth_In. rewrite length_map. lia. }
  rewrite orb_true_r, Nat2Z.id. f_equal.
  apply tabulate_ext. intros i k Hi Hk. f_equal.
  transitivity
    (map (fun e => smul (get x (Z.to_nat (snd (nth e (indices a) (0, 0)%Z))) k)
                        (nth e (values a) szero))
         (filter (fun e => (nth (if (length (indices a) =? 1)%nat then 0%nat else e)
                                (map fst (indices a)) 0 =? Z.of_nat i)%Z)
                 (seq 0 (length (indices a))))).
  - apply map_ext_in. intros e He.
    apply filter_In in He. destruct He as [He _]. apply in_seq in He.
    rewrite get_tabulate by lia.
    rewrite Hsame by lia.
    rewrite get_tabulate by lia. rewrite nth_map_snd. reflexivity.
  - f_equal. apply filter_ext_in. intros e He. apply in_seq in He.
    rewrite Hsame by lia. rewrite nth_map_fst. reflexivity.
Qed.

End SparseProduct.

(** ** The sparse product is the product with the dense form *)

Section DenseForm.
Import Torch TorchSparse.
Context {S : Type} `{Scalar S}.
Hypothesis SR : ScalarLaws.

Lemma valid_sparse_nth (a : SparseMatrix S) (m n e : nat) :
  valid_sparse a m n = true ->
  e < length (indices a) ->
  (0 <= snd (nth e (indices a) (0, 0)%Z) < Z.of_nat n)%Z.
Proof.
  intros Hv He. unfold valid_sparse in Hv.
  apply andb_true_iff in Hv. destruct Hv as [_ Hall].
  rewrite forallb_forall in Hall.
  specialize (Hall _ (nth_In (indices a) (0, 0)%Z He)).
  repeat (apply andb_true_iff in Hall; destruct Hall as [Hall ?]).
  lia.
Qed.

Lemma spmm_dense (a : SparseMatrix S) (m n : nat) (x : Tensor S) :
  valid_sparse a m n = true ->
  shape0 x = n ->
  spmm (indices a) (values a) (Z.of_nat m) (Z.of_nat n) x
  = Ok (mm_entries (to_dense a m n) x).
Proof.
  intros Hv Hx. rewrite (spmm_valid a m n x Hv Hx). f_equal.
  unfold mm_entries. change (shape0 (to_dense a m n)) with m.
  change (shape1 (to_dense a m n)) with n.
  apply tabulate_ext. intros i k Hi Hk.
  set (es := seq 0 (length (indices a))).
  set (r := fun e => fst (nth e (indices a) (0, 0)%Z)).
  set (c := fun e => snd (nth e (indices a) (0, 0)%Z)).
  set (v := fun e => nth e (values a) szero).
  transitivity
    (ssum (map (fun j =>
                  ssum (map (fun e => smul (if (r e =? Z.of_nat i)%Z && (c e =? Z.of_nat j)%Z
                                            then v e else szero)
                                           (get x j k)) es))
               (seq 0 n))).
  - rewrite <- (ssum_swap SR _ _
               (fun e j => smul (if (r e =? Z.of_nat i)%Z && (c e =? Z.of_nat j)%Z
                                 then v e else szero) (get x j k))).
    rewrite (ssum_filter SR). f_equal.
    apply map_ext_in. intros e He. apply in_seq in He.
    assert (Hc : (0 <= c e < Z.of_nat n)%Z)
      by (apply (valid_sparse_nth a m n e Hv); lia).
    unfold r, c, v in *.
    destruct (fst (nth e (indices a) (0, 0)%Z) =? Z.of_nat i)%Z; cbn [andb].
    + transitivity
        (ssum (map (fun j => if j =? Z.to_nat (snd (nth e (indices a) (0, 0)%Z))
                             then smul (nth e (values a) szero) (get x j k) else szero)
                   (seq 0 n))).
      * rewrite (ssum_point SR (Z.to_nat (snd (nth e (indices a) (0, 0)%Z)))
                   (fun j => smul (nth e (values a) szero) (get x j k)) (seq 0 n)).
        -- apply (SRmul_comm SR).
        -- apply seq_NoDup.
        -- apply in_seq. lia.
      * f_equal. apply map_ext. intros j.
        destruct (Nat.eqb_spec j (Z.to_nat (snd (nth e (indices a) (0, 0)%Z)))) as [->|Hne].
        -- rewrite Z2Nat.id by lia. rewrite Z.eqb_refl. reflexivity.
        -- destruct (Z.eqb_spec (snd (nth e (indices a) (0, 0)%Z)) (Z.of_nat j)) as [Heq|_].
           ++ exfalso. apply Hne. rewrite Heq. symmetry. apply Nat2Z.id.
           ++ symmetry. apply (smul_0_l SR).
    + transitivity (ssum (map (fun _ : nat => szero) (seq 0 n))).
      * symmetry. apply (ssum_map_zero SR).
      * f_equal. apply map_ext. intros j. symmetry. apply (smul_0_l SR).
  - f_equal. apply map_ext_in. intros j Hj. apply in_seq in Hj.
    rewrite (ssum_map_mul_r SR). f_equal.
    unfold to_dense. rewrite get_tabulate by lia.
    symmetry. apply (ssum_filter SR).
Qed.

Lemma mm_entries_assoc (p a x : Tensor S) :
  shape1 p = shape0 a ->
  mm_entries (mm_entries p a) x = mm_entries p (mm_entries a x).
Proof.
  intros Hpa. unfold mm_entries at 1 3. cbn [shape0 shape1 mm_entries tabulate].
  apply tabulate_ext. intros i k Hi Hk.
  transitivity
    (ssum (map (fun j =>
                  ssum (map (fun l => smul (smul (get p i l) (get a l j)) (get x j k))
                            (seq 0 (shape1 p))))
               (seq 0 (shape1 a)))).
  - f_equal. apply map_ext_in. intros j Hj. apply in_seq in Hj.
    rewrite (ssum_map_mul_r SR). f_equal.
    unfold mm_entries. rewrite get_tabulate by lia. reflexivity.
  - rewrite (ssum_swap SR). f_equal.
    apply map_ext_in. intros l Hl. apply in_seq in Hl.
    unfold mm_entries at 1. rewrite get_tabulate by lia.
    rewrite <- (ssum_map_mul_l SR). f_equal.
    apply map_ext. intros j. symmetry. apply (SRmul_assoc SR).
Qed.

Lemma mm_entries_eye (n : nat) (x : Tensor S) :
  wf x -> shape0 x = n -> mm_entries (eye n) x = x.
Proof.
  intros Hwf Hx. rewrite Hwf at 2. unfold mm_entries.
  change (shape0 (eye n)) with n. change (shape1 (eye n)) with n.
  rewrite Hx. apply tabulate_ext. intros i k Hi Hk.
  transitivity
    (ssum (map (fun j => if j =? i then get x j k else szero) (seq 0 n))).
  - f_equal. apply map_ext_in. intros j Hj. apply in_seq in Hj.
    unfold eye. rewrite get_tabulate by lia.
    rewrite (Nat.eqb_sym j i). destruct (i =? j).
    + apply (SRmul_1_l SR).
    + apply (smul_0_l SR).
  - apply (ssum_point SR i (fun j => get x j k)).
    + apply seq_NoDup.
    + apply in_seq. lia.
Qed.

Lemma mpow_shape (a : Tensor S) (k : nat) :
  shape1 a = shape0 a ->
  shape0 (mpow a k) = shape0 a /\ shape1 (mpow a k) = shape0 a.
Proof.
  intros Hsq. induction k as [|k IH]; simpl.
  - split; reflexivity.
  - destruct IH as [IH0 IH1]. split; [exact IH0|exact Hsq].
Qed.

(** [k] hops are one product with the [k]-th power of the adjacency
    matrix. *)
Lemma hops_dense (adj : SparseMatrix S) (n k : nat) (x : Tensor S) :
  valid_sparse adj n n = true ->
  wf x -> shape0 x = n ->
  hops k adj x = Ok (mm_entries (mpow (to_dense adj n n) k) x).
Proof.
  intros Hv. revert x. induction k as [|k IH]; intros x Hwf Hx.
  - simpl. f_equal. symmetry. apply mm_entries_eye; assumption.
  - cbn [hops]. rewrite Hx, (spmm_dense adj n n x Hv Hx). cbn [bind].
    rewrite IH.
    + f_equal. cbn [mpow]. symmetry. apply mm_entries_assoc.
      apply (mpow_shape (to_dense adj n n) k). reflexivity.
    + apply wf_tabulate.
    + reflexivity.
Qed.

End DenseForm.

(** ** The two [forward] methods as a prologue followed by hops *)

Section Forward.
Import Torch TorchSparse.
Context {S : Type} `{Scalar S}.

Lemma bind_Ok_inv (A B : Type) (r : result A) (k : A -> result B) (b : B) :
  bind r k = Ok b -> exists a, r = Ok a /\ k a = Ok b.
Proof.
  destruct r as [a|e]; simpl; intros Hb; [|discriminate].
  exists a. split; [reflexivity|exact Hb].
Qed.

Lemma sparse_forward_hops (self : SparseNGCNLayer.layer S) (rng : nat -> nat -> S)
    (adj features : SparseMatrix S) :
  SparseNGCNLayer.forward self rng adj features
  = (x <- sparse_before_loop self rng features ;;
     hops (Z.to_nat (SparseNGCNLayer.iterations self - 1)) adj x).
Proof.
  unfold SparseNGCNLayer.forward, sparse_before_loop.
  destruct (max_dim1 (indices features)) as [fc|e]; [|reflexivity].
  cbn [bind fst snd].
  destruct (spmm _ _ _ _ _) as [p|e]; [|reflexivity]. cbn [bind].
  destruct (add _ _) as [b|e]; [|reflexivity]. cbn [bind].
  destruct (dropout _ _ _ _) as [d|e]; [|reflexivity]. cbn [bind].
  rewrite loop_hops, range_length. reflexivity.
Qed.

Lemma dense_forward_hops (self : DenseNGCNLayer.layer S) (rng : nat -> nat -> S)
    (adj : SparseMatrix S) (features : Tensor S) :
  DenseNGCNLayer.forward self rng adj features
  = (x <- dense_before_loop self rng features ;;
     y <- hops (Z.to_nat (DenseNGCNLayer.iterations self - 1)) adj x ;;
     add y (DenseNGCNLayer.bias self)).
Proof.
  unfold DenseNGCNLayer.forward, dense_before_loop.
  destruct (mm _ _) as [p|e]; [|reflexivity]. cbn [bind].
  destruct (dropout _ _ _ _) as [d|e]; [|reflexivity]. cbn [bind].
  rewrite loop_hops, range_length. reflexivity.
Qed.

Lemma hops_snoc (k : nat) (adj : SparseMatrix S) (x : Tensor S) :
  hops (Datatypes.S k) adj x
  = (y <- hops k adj x ;;
     spmm (indices adj) (values adj)
          (Z.of_nat (shape0 y)) (Z.of_nat (shape0 y)) y).
Proof.
  revert x. induction k as [|k IH]; intros x.
  - cbn [hops bind]. apply bind_Ok_r.
  - change (hops (Datatypes.S (Datatypes.S k)) adj x)
      with (z <- spmm (indices adj) (values adj)
                      (Z.of_nat (shape0 x)) (Z.of_nat (shape0 x)) x ;;
            hops (Datatypes.S k) adj z).
    change (hops (Datatypes.S k) adj x)
      with (z <- spmm (indices adj) (values adj)
                      (Z.of_nat (shape0 x)) (Z.of_nat (shape0 x)) x ;;
            hops k adj z).
    destruct (spmm (indices adj) (values adj) (Z.of_nat (shape0 x))
                   (Z.of_nat (shape0 x)) x) as [z|e]; [|reflexivity].
    cbn [bind]. apply IH.
Qed.

(** The loop written as the iteration of its body. *)
Lemma hops_iter (k : nat) (adj : SparseMatrix S) (x : Tensor S) :
  hops k adj x
  = Nat.iter k
      (fun acc =>
         y <- acc ;;
         spmm (indices adj) (values adj)
              (Z.of_nat (shape0 y)) (Z.of_nat (shape0 y)) y)
      (Ok x).
Proof.
  induction k as [|k IH]; [reflexivity|].
  rewrite hops_snoc, IH. reflexivity.
Qed.

Lemma dropout_wf (x y : Tensor S) (p : Q) (training : bool) (rng : nat -> nat -> S) :
  wf x -> dropout x p training rng = Ok y -> wf y.
Proof.
  intros Hx. unfold dropout.
  destruct (_ || _)%bool; [discriminate|].
  destruct training; intros Hy; injection Hy as <-; [apply wf_tabulate|exact Hx].
Qed.

Lemma dropout_shape (x y : Tensor S) (p : Q) (training : bool) (rng : nat -> nat -> S) :
  dropout x p training rng = Ok y -> shape0 y = shape0 x /\ shape1 y = shape1 x.
Proof.
  unfold dropout.
  destruct (_ || _)%bool; [discriminate|].
  destruct training; intros Hy; injection Hy as <-; split; reflexivity.
Qed.

Lemma sparse_before_loop_wf (self : SparseNGCNLayer.layer S) (rng : nat -> nat -> S)
    (features : SparseMatrix S) (x : Tensor S) :
  sparse_before_loop self rng features = Ok x -> wf x.
Proof.
  unfold sparse_before_loop. intros Hx.
  apply bind_Ok_inv in Hx. destruct Hx as [fc [_ Hx]].
  apply bind_Ok_inv in Hx. destruct Hx as [p [_ Hx]].
  apply bind_Ok_inv in Hx. destruct Hx as [b [_ Hx]].
  apply bind_Ok_inv in Hx. destruct Hx as [d [_ Hx]].
  injection Hx as <-. apply wf_tabulate.
Qed.

Lemma dense_before_loop_wf (self : DenseNGCNLayer.layer S) (rng : nat -> nat -> S)
    (features x : Tensor S) :
  dense_before_loop self rng features = Ok x -> wf x.
Proof.
  unfold dense_before_loop. intros Hx.
  apply bind_Ok_inv in Hx. destruct Hx as [p [Hp Hx]].
  apply (dropout_wf p) in Hx; [exact Hx|].
  unfold mm in Hp. destruct (_ =? _); [|discriminate].
  injection Hp as <-. apply wf_tabulate.
Qed.

Lemma to_accepted (available : String.string -> bool) (t : Tensor S)
    (dev : String.string) :
  device_accepted available dev = true -> to available t dev = Ok t.
Proof.
  unfold device_accepted, to. intros Hd.
  apply andb_true_iff in Hd. destruct Hd as [Hne Ha].
  apply negb_true_iff in Hne. rewrite Hne, Ha. reflexivity.
Qed.

Lemma to_refused (available : String.string -> bool) (t : Tensor S)
    (dev : String.string) :
  device_accepted available dev = false -> to available t dev = Err DeviceError.
Proof.
  unfold device_accepted, to. intros Hd.
  destruct (String.eqb dev String.EmptyString); [reflexivity|].
  cbn [negb andb] in Hd. rewrite Hd. reflexivity.
Qed.

(** Construction with positive channel counts on a device the host
    offers. *)
Lemma sparse_init_positive (available : String.string -> bool)
    (inc outc k : Z) (p : Q) (dev : String.string) (dw db : nat -> nat -> S) :
  (0 < inc)%Z -> (0 < outc)%Z -> device_accepted available dev = true ->
  SparseNGCNLayer.init available inc outc k p dev dw db
  = Ok (SparseNGCNLayer.mkLayer inc outc k p dev
          (tabulate (Z.to_nat inc) (Z.to_nat outc) dw)
          (tabulate 1 (Z.to_nat outc) db) true).
Proof.
  intros Hi Ho Hd.
  unfold SparseNGCNLayer.init, SparseNGCNLayer.define_parameters,
    SparseNGCNLayer.init_parameters, new_tensor, xavier_uniform_.
  replace (inc <? 0)%Z with false by (symmetry; apply Z.ltb_ge; lia).
  replace (outc <? 0)%Z with false by (symmetry; apply Z.ltb_ge; lia).
  cbn [orb bind Z.ltb Z.compare].
  rewrite !(to_accepted available _ dev Hd).
  cbn [bind fst snd shape0 shape1 tabulate].
  replace (Z.to_nat outc + Z.to_nat inc =? 0) with false
    by (symmetry; apply Nat.eqb_neq; lia).
  cbn [bind fst snd shape0 shape1 tabulate].
  replace (Z.to_nat outc + Z.to_nat 1 =? 0) with false
    by (symmetry; apply Nat.eqb_neq; lia).
  reflexivity.
Qed.

Lemma dense_init_positive (available : String.string -> bool)
    (inc outc k : Z) (p : Q) (dev : String.string) (dw db : nat -> nat -> S) :
  (0 < inc)%Z -> (0 < outc)%Z -> device_accepted available dev = true ->
  DenseNGCNLayer.init available inc outc k p dev dw db
  = Ok (DenseNGCNLayer.mkLayer inc outc k p dev
          (tabulate (Z.to_nat inc) (Z.to_nat outc) dw)
          (tabulate 1 (Z.to_nat outc) db) true).
Proof.
  intros Hi Ho Hd.
  unfold DenseNGCNLayer.init, DenseNGCNLayer.define_parameters,
    DenseNGCNLayer.init_parameters, new_tensor, xavier_uniform_.
  replace (inc <? 0)%Z with false by (symmetry; apply Z.ltb_ge; lia).
  replace (outc <? 0)%Z with false by (symmetry; apply Z.ltb_ge; lia).
  cbn [orb bind Z.ltb Z.compare].
  rewrite !(to_accepted available _ dev Hd).
  cbn [bind fst snd shape0 shape1 tabulate].
  replace (Z.to_nat outc + Z.to_nat inc =? 0) with false
    by (symmetry; apply Nat.eqb_neq; lia).
  cbn [bind fst snd shape0 shape1 tabulate].
  replace (Z.to_nat outc + Z.to_nat 1 =? 0) with false
    by (symmetry; apply Nat.eqb_neq; lia).
  reflexivity.
Qed.

End Forward.

(** ** Shapes *)

Section Shapes.
Import Torch TorchSparse.
Context {S : Type} `{Scalar S}.

Lemma hops_shape (k : nat) (adj : SparseMatrix S) (x y : Tensor S) :
  hops k adj x = Ok y -> shape0 y = shape0 x /\ shape1 y = shape1 x.
Proof.
  revert x. induction k as [|k IH]; intros x Hy.
  - cbn [hops] in Hy. injection Hy as <-. split; reflexivity.
  - cbn [hops] in Hy. apply bind_Ok_inv in Hy. destruct Hy as [z [Hz Hy]].
    apply spmm_shape in Hz. apply IH in Hy.
    rewrite Nat2Z.id in Hz. destruct Hz, Hy. split; congruence.
Qed.

Lemma mm_shape (a b p : Tensor S) :
  mm a b = Ok p -> shape0 p = shape0 a /\ shape1 p = shape1 b.
Proof.
  unfold mm. destruct (_ =? _); [|discriminate].
  intros Hp. injection Hp as <-. split; reflexivity.
Qed.

(** Adding a row of the same width keeps the shape. *)
Lemma add_row_shape (x b y : Tensor S) :
  shape0 b = 1 -> shape1 b = shape1 x ->
  add x b = Ok y -> shape0 y = shape0 x /\ shape1 y = shape1 x.
Proof.
  intros Hb0 Hb1. unfold add, broadcast_dim. rewrite Hb0, Hb1, !Nat.eqb_refl.
  destruct (shape0 x =? 1) eqn:E.
  - intros Hy. injection Hy as <-. split; reflexivity.
  - intros Hy. injection Hy as <-. split; reflexivity.
Qed.

Lemma add_row_shape0 (x b y : Tensor S) :
  shape0 b = 1 -> add x b = Ok y -> shape0 y = shape0 x.
Proof.
  intros Hb0. unfold add, broadcast_dim. rewrite Hb0.
  destruct (shape0 x =? 1) eqn:E; cbn [Nat.eqb];
    destruct (if shape1 x =? shape1 b then _ else _); try discriminate;
    intros Hy; injection Hy as <-; reflexivity.
Qed.

Lemma dropout_eval (x : Tensor S) (p : Q) (rng : nat -> nat -> S) :
  (0 <= p)%Q -> (p <= 1)%Q -> dropout x p false rng = Ok x.
Proof.
  intros H0 H1. unfold dropout.
  apply Qle_bool_iff in H0. apply Qle_bool_iff in H1.
  rewrite H0, H1. reflexivity.
Qed.

Lemma max_dim1_fold (rest : list (Z * Z)) (e : Z * Z) :
  let r := fold_left (fun acc x => (Z.max (fst acc) (fst x), Z.max (snd acc) (snd x)))
                     rest e in
  (exists a, In a (e :: rest) /\ fst a = fst r)
  /\ (forall a, In a (e :: rest) -> (fst a <= fst r)%Z)
  /\ (exists a, In a (e :: rest) /\ snd a = snd r)
  /\ (forall a, In a (e :: rest) -> (snd a <= snd r)%Z).
Proof.
  revert e. induction rest as [|x rest IH]; intros e; cbn [fold_left].
  - repeat split.
    + exists e. split; [left; reflexivity|reflexivity].
    + intros a [<-|[]]. lia.
    + exists e. split; [left; reflexivity|reflexivity].
    + intros a [<-|[]]. lia.
  - specialize (IH (Z.max (fst e) (fst x), Z.max (snd e) (snd x))).
    cbv zeta in IH. destruct IH as [[a [Ha Hfa]] [Hub0 [[c [Hc Hsc]] Hub1]]].
    set (r := fold_left _ rest _) in *.
    assert (Hm0 : (Z.max (fst e) (fst x) <= fst r)%Z)
      by (apply (Hub0 (Z.max (fst e) (fst x), Z.max (snd e) (snd x)));
          left; reflexivity).
    assert (Hm1 : (Z.max (snd e) (snd x) <= snd r)%Z)
      by (apply (Hub1 (Z.max (fst e) (fst x), Z.max (snd e) (snd x)));
          left; reflexivity).
    repeat split.
    + destruct Ha as [<-|Ha].
      * cbn [fst] in Hfa.
        destruct (Z.max_spec (fst e) (fst x)) as [[_ Hmax]|[_ Hmax]];
          rewrite Hmax in Hfa.
        -- exists x. split; [right; left; reflexivity|exact Hfa].
        -- exists e. split; [left; reflexivity|exact Hfa].
      * exists a. split; [right; right; exact Ha|exact Hfa].
    + intros b [<-|[<-|Hb]]; [lia|lia|]. apply Hub0. right. exact Hb.
    + destruct Hc as [<-|Hc].
      * cbn [snd] in Hsc.
        destruct (Z.max_spec (snd e) (snd x)) as [[_ Hmax]|[_ Hmax]];
          rewrite Hmax in Hsc.
        -- exists x. split; [right; left; reflexivity|exact Hsc].
        -- exists e. split; [left; reflexivity|exact Hsc].
      * exists c. split; [right; right; exact Hc|exact Hsc].
    + intros b [<-|[<-|Hb]]; [lia|lia|]. apply Hub1. right. exact Hb.
Qed.

Lemma sparse_before_loop_shape (self : SparseNGCNLayer.layer S)
    (rng : nat -> nat -> S) (features : SparseMatrix S) (x : Tensor S) :
  sparse_params_shaped self ->
  sparse_before_loop self rng features = Ok x ->
  exists fc, max_dim1 (indices features) = Ok fc
             /\ shape0 x = Z.to_nat (fst fc + 1)
             /\ shape1 x = Z.to_nat (SparseNGCNLayer.out_channels self).
Proof.
  intros [_ [Hw1 [Hb0 Hb1]]] Hx. unfold sparse_before_loop in Hx.
  apply bind_Ok_inv in Hx. destruct Hx as [fc [Hfc Hx]].
  apply bind_Ok_inv in Hx. destruct Hx as [p [Hp Hx]].
  apply bind_Ok_inv in Hx. destruct Hx as [b [Hb Hx]].
  apply bind_Ok_inv in Hx. destruct Hx as [d [Hd Hx]].
  injection Hx as <-.
  apply spmm_shape in Hp. destruct Hp as [Hp0 Hp1].
  apply add_row_shape in Hb; [|exact Hb0|congruence]. destruct Hb as [Hb0' Hb1'].
  apply dropout_shape in Hd. destruct Hd as [Hd0 Hd1].
  exists fc. split; [exact Hfc|]. cbn [relu shape0 shape1 tabulate].
  split; congruence.
Qed.

Lemma dense_before_loop_shape (self : DenseNGCNLayer.layer S)
    (rng : nat -> nat -> S) (features x : Tensor S) :
  dense_before_loop self rng features = Ok x ->
  shape0 x = shape0 features
  /\ shape1 x = shape1 (DenseNGCNLayer.weight_matrix self).
Proof.
  unfold dense_before_loop. intros Hx.
  apply bind_Ok_inv in Hx. destruct Hx as [p [Hp Hx]].
  apply mm_shape in Hp. apply dropout_shape in Hx.
  destruct Hp, Hx. split; congruence.
Qed.

End Shapes.

(** ** The identity as adjacency matrix *)

Section IdentityAdjacency.
Import Torch TorchSparse.
Context {S : Type} `{Scalar S}.
Hypothesis sadd_zero_left : forall a : S, sadd szero a = a.
Hypothesis smul_one_right : forall a : S, smul a sone = a.





End IdentityAdjacency.

(** The integers satisfy the laws. *)
Lemma Z_ScalarLaws : @ScalarLaws Z Z_Scalar.
Proof.
  unfold ScalarLaws. constructor; intros; cbn [szero sone sadd smul Z_Scalar]; lia.
Qed.

(** * The layers *)

Section Layers.
Import Torch TorchSparse.
Context {S : Type} `{Scalar S}.

(** C1.  With [iterations = k + 1 >= 1], the forward pass of the sparse
    layer projects the features with the sparse product, adds the bias,
    applies dropout, applies ReLU, each once, and then performs exactly [k]
    hops, which only multiply by the adjacency matrix.  Over a commutative
    semiring, and for an adjacency matrix whose entries fit the rows of the
    result, the hops are the product with the [k]-th power of the dense
    adjacency matrix. *)
Theorem sparse_forward_is_adjacency_power
    (self : SparseNGCNLayer.layer S) (rng : nat -> nat -> S)
    (adj features : SparseMatrix S) (k : nat) :
  SparseNGCNLayer.iterations self = (Z.of_nat k + 1)%Z ->
  SparseNGCNLayer.forward self rng adj features
  = (fc <- max_dim1 (indices features) ;;
     p <- spmm (indices features) (values features) (fst fc + 1)%Z (snd fc + 1)%Z
               (SparseNGCNLayer.weight_matrix self) ;;
     b <- add p (SparseNGCNLayer.bias self) ;;
     d <- dropout b (SparseNGCNLayer.dropout_rate self)
                  (SparseNGCNLayer.training self) rng ;;
     hops k adj (relu d))
  /\ (ScalarLaws ->
      forall x : Tensor S,
        sparse_before_loop self rng features = Ok x ->
        valid_sparse adj (shape0 x) (shape0 x) = true ->
        SparseNGCNLayer.forward self rng adj features
        = Ok (mm_entries (mpow (to_dense adj (shape0 x) (shape0 x)) k) x)).
Proof.
  intros HK.
  assert (Hk : Z.to_nat (SparseNGCNLayer.iterations self - 1) = k) by lia.
  split.
  - rewrite sparse_forward_hops, Hk. unfold sparse_before_loop.
    destruct (max_dim1 (indices features)) as [fc|e]; [|reflexivity]. cbn [bind].
    destruct (spmm _ _ _ _ _) as [p|e]; [|reflexivity]. cbn [bind].
    destruct (add _ _) as [b|e]; [|reflexivity]. cbn [bind].
    destruct (dropout _ _ _ _) as [d|e]; reflexivity.
  - intros SR x Hx Hv. rewrite sparse_forward_hops, Hx, Hk. cbn [bind].
    apply (hops_dense SR); [exact Hv| |reflexivity].
    apply (sparse_before_loop_wf _ _ _ _ Hx).
Qed.

(** C2.  With [iterations = k + 1 >= 1], the forward pass of the dense
    layer multiplies the features by the weight matrix, applies dropout,
    performs exactly [k] hops and only then adds the bias; no ReLU takes
    part.  Over a commutative semiring, and for an adjacency matrix whose
    entries fit the rows of the features, the hops are the product with the
    [k]-th power of the dense adjacency matrix. *)
Theorem dense_forward_is_adjacency_power
    (self : DenseNGCNLayer.layer S) (rng : nat -> nat -> S)
    (adj : SparseMatrix S) (features : Tensor S) (k : nat) :
  DenseNGCNLayer.iterations self = (Z.of_nat k + 1)%Z ->
  DenseNGCNLayer.forward self rng adj features
  = (p <- mm features (DenseNGCNLayer.weight_matrix self) ;;
     d <- dropout p (DenseNGCNLayer.dropout_rate self)
                  (DenseNGCNLayer.training self) rng ;;
     y <- hops k adj d ;;
     add y (DenseNGCNLayer.bias self))
  /\ (ScalarLaws ->
      forall x : Tensor S,
        dense_before_loop self rng features = Ok x ->
        valid_sparse adj (shape0 x) (shape0 x) = true ->
        DenseNGCNLayer.forward self rng adj features
        = add (mm_entries (mpow (to_dense adj (shape0 x) (shape0 x)) k) x)
              (DenseNGCNLayer.bias self)).
Proof.
  intros HK.
  assert (Hk : Z.to_nat (DenseNGCNLayer.iterations self - 1) = k) by lia.
  split.
  - rewrite dense_forward_hops, Hk. unfold dense_before_loop.
    destruct (mm _ _) as [p|e]; [|reflexivity]. cbn [bind].
    destruct (dropout _ _ _ _) as [d|e]; reflexivity.
  - intros SR x Hx Hv. rewrite dense_forward_hops, Hx, Hk. cbn [bind].
    rewrite (hops_dense SR adj _ k x Hv (dense_before_loop_wf _ _ _ _ Hx) eq_refl).
    reflexivity.
Qed.

(** C6.  With [iterations = 1] the loop body never runs: the sparse layer
    returns ReLU (dropout (projection + bias)) and the dense layer returns
    dropout (projection) + bias; the adjacency matrix is not used. *)
Theorem forward_single_iteration :
  (forall (self : SparseNGCNLayer.layer S) rng adj features,
      SparseNGCNLayer.iterations self = 1%Z ->
      SparseNGCNLayer.forward self rng adj features
      = (fc <- max_dim1 (indices features) ;;
         p <- spmm (indices features) (values features) (fst fc + 1)%Z (snd fc + 1)%Z
                   (SparseNGCNLayer.weight_matrix self) ;;
         b <- add p (SparseNGCNLayer.bias self) ;;
         d <- dropout b (SparseNGCNLayer.dropout_rate self)
                      (SparseNGCNLayer.training self) rng ;;
         Ok (relu d)))
  /\ (forall (self : DenseNGCNLayer.layer S) rng adj features,
      DenseNGCNLayer.iterations self = 1%Z ->
      DenseNGCNLayer.forward self rng adj features
      = (p <- mm features (DenseNGCNLayer.weight_matrix self) ;;
         d <- dropout p (DenseNGCNLayer.dropout_rate self)
                      (DenseNGCNLayer.training self) rng ;;
         add d (DenseNGCNLayer.bias self))).
Proof.
  split; intros self rng adj features HK.
  - rewrite sparse_forward_hops, HK. cbn [Z.sub Z.add Z.opp Z.pos_sub Z.to_nat hops].
    apply bind_Ok_r.
  - rewrite dense_forward_hops, HK. cbn [Z.sub Z.add Z.opp Z.pos_sub Z.to_nat hops].
    unfold dense_before_loop.
    destruct (mm _ _) as [p|e]; [|reflexivity]. cbn [bind].
    destruct (dropout _ _ _ _) as [d|e]; reflexivity.
Qed.

(** C9.  An iteration count of one or less, zero and negative counts
    included, is accepted by the constructor of either layer (given
    positive channel counts and a device the host offers) and makes
    [forward] return what it returns for the count one: the loop ranges
    over nothing. *)
Theorem iterations_at_most_one :
  (forall (self : SparseNGCNLayer.layer S) rng adj features,
      (SparseNGCNLayer.iterations self <= 1)%Z ->
      SparseNGCNLayer.forward self rng adj features
      = SparseNGCNLayer.forward (sparse_with_iterations self 1) rng adj features)
  /\ (forall (self : DenseNGCNLayer.layer S) rng adj features,
      (DenseNGCNLayer.iterations self <= 1)%Z ->
      DenseNGCNLayer.forward self rng adj features
      = DenseNGCNLayer.forward (dense_with_iterations self 1) rng adj features)
  /\ (forall available inc outc k p dev (dw db : nat -> nat -> S),
      (0 < inc)%Z -> (0 < outc)%Z -> device_accepted available dev = true ->
      (k <= 1)%Z ->
      exists self,
        SparseNGCNLayer.init available inc outc k p dev dw db = Ok self
        /\ SparseNGCNLayer.iterations self = k
        /\ SparseNGCNLayer.init available inc outc 1 p dev dw db
           = Ok (sparse_with_iterations self 1))
  /\ (forall available inc outc k p dev (dw db : nat -> nat -> S),
      (0 < inc)%Z -> (0 < outc)%Z -> device_accepted available dev = true ->
      (k <= 1)%Z ->
      exists self,
        DenseNGCNLayer.init available inc outc k p dev dw db = Ok self
        /\ DenseNGCNLayer.iterations self = k
        /\ DenseNGCNLayer.init available inc outc 1 p dev dw db
           = Ok (dense_with_iterations self 1)).
Proof.
  repeat split.
  - intros self rng adj features HK.
    rewrite !sparse_forward_hops. cbn [sparse_with_iterations SparseNGCNLayer.iterations].
    replace (Z.to_nat (SparseNGCNLayer.iterations self - 1)) with 0 by lia.
    reflexivity.
  - intros self rng adj features HK.
    rewrite !dense_forward_hops. cbn [dense_with_iterations DenseNGCNLayer.iterations].
    replace (Z.to_nat (DenseNGCNLayer.iterations self - 1)) with 0 by lia.
    reflexivity.
  - intros available inc outc k p dev dw db Hi Ho Hd _.
    eexists. split; [apply sparse_init_positive; assumption|].
    split; [reflexivity|]. apply sparse_init_positive; assumption.
  - intros available inc outc k p dev dw db Hi Ho Hd _.
    eexists. split; [apply dense_init_positive; assumption|].
    split; [reflexivity|]. apply dense_init_positive; assumption.
Qed.

(** C8.  Outside training mode dropout hands its input back unchanged
    (for a rate the library accepts), and the result of [forward], for
    either layer, does not depend on the state of the random generator: two
    calls with the same inputs and parameters return the same result. *)
Theorem forward_deterministic_in_eval_mode :
  (forall (x : Tensor S) (p : Q) (rng : nat -> nat -> S),
      (0 <= p)%Q -> (p <= 1)%Q -> dropout x p false rng = Ok x)
  /\ (forall (self : SparseNGCNLayer.layer S) rng rng' adj features,
      SparseNGCNLayer.training self = false ->
      SparseNGCNLayer.forward self rng adj features
      = SparseNGCNLayer.forward self rng' adj features)
  /\ (forall (self : DenseNGCNLayer.layer S) rng rng' adj features,
      DenseNGCNLayer.training self = false ->
      DenseNGCNLayer.forward self rng adj features
      = DenseNGCNLayer.forward self rng' adj features).
Proof.
  repeat split.
  - intros x p rng H0 H1. unfold dropout.
    apply Qle_bool_iff in H0. apply Qle_bool_iff in H1.
    rewrite H0, H1. reflexivity.
  - intros self rng rng' adj features Ht.
    unfold SparseNGCNLayer.forward, dropout. rewrite Ht. reflexivity.
  - intros self rng rng' adj features Ht.
    unfold DenseNGCNLayer.forward, dropout. rewrite Ht. reflexivity.
Qed.

(** C4, amended.  The constructors check neither the dropout
    rate nor the iteration count: with positive channel counts and a
    device the host offers, construction succeeds for every rate and every
    count, and stores both as given. *)
Theorem init_accepts_every_rate_and_count
    (available : String.string -> bool)
    (inc outc k : Z) (p : Q) (dev : String.string) (dw db : nat -> nat -> S) :
  (0 < inc)%Z -> (0 < outc)%Z -> device_accepted available dev = true ->
  (exists self,
      SparseNGCNLayer.init available inc outc k p dev dw db = Ok self
      /\ SparseNGCNLayer.iterations self = k
      /\ SparseNGCNLayer.dropout_rate self = p)
  /\ (exists self,
      DenseNGCNLayer.init available inc outc k p dev dw db = Ok self
      /\ DenseNGCNLayer.iterations self = k
      /\ DenseNGCNLayer.dropout_rate self = p).
Proof.
  intros Hi Ho Hd. split; eexists; (split; [|split]).
  - apply sparse_init_positive; assumption.
  - reflexivity.
  - reflexivity.
  - apply dense_init_positive; assumption.
  - reflexivity.
  - reflexivity.
Qed.

(** C10.  In both layers the loop runs [iterations - 1] times, and every
    run calls the sparse product with the row extent and the column extent
    both set to the row count of the matrix it multiplies ([Nat.iter]
    below spells the body out), never to an extent of the adjacency
    matrix.  Such a call keeps the shape of that matrix whatever the
    adjacency holds; the result of [forward] therefore has the rows of the
    matrix that entered the loop and [out_channels] columns, for every
    iteration count. *)
Theorem forward_keeps_shape :
  (forall (self : SparseNGCNLayer.layer S) rng adj features,
      SparseNGCNLayer.forward self rng adj features
      = (x <- sparse_before_loop self rng features ;;
         Nat.iter (Z.to_nat (SparseNGCNLayer.iterations self - 1))
           (fun acc =>
              y <- acc ;;
              spmm (indices adj) (values adj)
                   (Z.of_nat (shape0 y)) (Z.of_nat (shape0 y)) y)
           (Ok x)))
  /\ (forall (self : DenseNGCNLayer.layer S) rng adj features,
      DenseNGCNLayer.forward self rng adj features
      = (x <- dense_before_loop self rng features ;;
         z <- Nat.iter (Z.to_nat (DenseNGCNLayer.iterations self - 1))
                (fun acc =>
                   y <- acc ;;
                   spmm (indices adj) (values adj)
                        (Z.of_nat (shape0 y)) (Z.of_nat (shape0 y)) y)
                (Ok x) ;;
         add z (DenseNGCNLayer.bias self)))
  /\ (forall (adj : SparseMatrix S) (x y : Tensor S),
      spmm (indices adj) (values adj)
           (Z.of_nat (shape0 x)) (Z.of_nat (shape0 x)) x = Ok y ->
      shape0 y = shape0 x /\ shape1 y = shape1 x)
  /\ (forall (self : SparseNGCNLayer.layer S) rng adj features out,
      sparse_params_shaped self ->
      SparseNGCNLayer.forward self rng adj features = Ok out ->
      exists x,
        sparse_before_loop self rng features = Ok x
        /\ shape0 out = shape0 x
        /\ shape1 out = Z.to_nat (SparseNGCNLayer.out_channels self))
  /\ (forall (self : DenseNGCNLayer.layer S) rng adj features out,
      dense_params_shaped self ->
      DenseNGCNLayer.forward self rng adj features = Ok out ->
      exists x,
        dense_before_loop self rng features = Ok x
        /\ shape0 x = shape0 features
        /\ shape0 out = shape0 x
        /\ shape1 out = Z.to_nat (DenseNGCNLayer.out_channels self)).
Proof.
  split; [|split; [|split; [|split]]].
  - intros self rng adj features. rewrite sparse_forward_hops.
    destruct (sparse_before_loop self rng features) as [x|e]; [|reflexivity].
    cbn [bind]. apply hops_iter.
  - intros self rng adj features. rewrite dense_forward_hops.
    destruct (dense_before_loop self rng features) as [x|e]; [|reflexivity].
    cbn [bind]. rewrite hops_iter. reflexivity.
  - intros adj x y Hy. apply spmm_shape in Hy.
    rewrite Nat2Z.id in Hy. exact Hy.
  - intros self rng adj features out Hs Hout.
    rewrite sparse_forward_hops in Hout.
    apply bind_Ok_inv in Hout. destruct Hout as [x [Hx Hout]].
    exists x. split; [exact Hx|].
    apply hops_shape in Hout. destruct Hout as [H0 H1].
    destruct (sparse_before_loop_shape _ _ _ _ Hs Hx) as [fc [_ [_ Hc]]].
    split; congruence.
  - intros self rng adj features out Hs Hout.
    rewrite dense_forward_hops in Hout.
    apply bind_Ok_inv in Hout. destruct Hout as [x [Hx Hout]].
    apply bind_Ok_inv in Hout. destruct Hout as [y [Hy Hout]].
    exists x. split; [exact Hx|].
    apply hops_shape in Hy. destruct Hy as [Hy0 Hy1].
    destruct (dense_before_loop_shape _ _ _ _ Hx) as [Hx0 Hx1].
    destruct Hs as [_ [Hw1 [Hb0 Hb1]]].
    apply add_row_shape in Hout; [|exact Hb0|congruence].
    destruct Hout as [Ho0 Ho1].
    split; [exact Hx0|]. split; congruence.
Qed.

(** C3.  The extents the sparse layer passes to its first sparse product
    are one plus the largest row index and one plus the largest column
    index of the features, and [forward] fails with a dimension error
    whenever that column extent differs from the row count of the weight
    matrix, which is the declared [in_channels]. *)
Theorem sparse_forward_extents
    (self : SparseNGCNLayer.layer S) (rng : nat -> nat -> S)
    (adj features : SparseMatrix S) (fc : Z * Z) :
  max_dim1 (indices features) = Ok fc ->
  ((exists e, In e (indices features) /\ fst e = fst fc)
   /\ (forall e, In e (indices features) -> (fst e <= fst fc)%Z)
   /\ (exists e, In e (indices features) /\ snd e = snd fc)
   /\ (forall e, In e (indices features) -> (snd e <= snd fc)%Z))
  /\ SparseNGCNLayer.forward self rng adj features
     = (p <- spmm (indices features) (values features) (1 + fst fc)%Z (1 + snd fc)%Z
                  (SparseNGCNLayer.weight_matrix self) ;;
        b <- add p (SparseNGCNLayer.bias self) ;;
        d <- dropout b (SparseNGCNLayer.dropout_rate self)
                     (SparseNGCNLayer.training self) rng ;;
        hops (Z.to_nat (SparseNGCNLayer.iterations self - 1)) adj (relu d))
  /\ ((1 + snd fc)%Z <> Z.of_nat (shape0 (SparseNGCNLayer.weight_matrix self)) ->
      SparseNGCNLayer.forward self rng adj features = Err DimensionError)
  /\ (sparse_params_shaped self ->
      (0 <= SparseNGCNLayer.in_channels self)%Z ->
      (1 + snd fc)%Z <> SparseNGCNLayer.in_channels self ->
      SparseNGCNLayer.forward self rng adj features = Err DimensionError).
Proof.
  intros Hfc.
  assert (Hfwd : SparseNGCNLayer.forward self rng adj features
     = (p <- spmm (indices features) (values features) (1 + fst fc)%Z (1 + snd fc)%Z
                  (SparseNGCNLayer.weight_matrix self) ;;
        b <- add p (SparseNGCNLayer.bias self) ;;
        d <- dropout b (SparseNGCNLayer.dropout_rate self)
                     (SparseNGCNLayer.training self) rng ;;
        hops (Z.to_nat (SparseNGCNLayer.iterations self - 1)) adj (relu d))).
  { rewrite sparse_forward_hops. unfold sparse_before_loop. rewrite Hfc. cbn [bind].
    rewrite (Z.add_comm (fst fc) 1), (Z.add_comm (snd fc) 1).
    destruct (spmm _ _ _ _ _) as [p|e]; [|reflexivity]. cbn [bind].
    destruct (add _ _) as [b|e]; [|reflexivity]. cbn [bind].
    destruct (dropout _ _ _ _) as [d|e]; reflexivity. }
  assert (Hne : (1 + snd fc)%Z <> Z.of_nat (shape0 (SparseNGCNLayer.weight_matrix self)) ->
                SparseNGCNLayer.forward self rng adj features = Err DimensionError).
  { intros Hn. rewrite Hfwd. unfold spmm.
    apply Z.eqb_neq in Hn. rewrite Hn. reflexivity. }
  split; [|split; [exact Hfwd|split; [exact Hne|]]].
  - unfold max_dim1 in Hfc. destruct (indices features) as [|e rest]; [discriminate|].
    injection Hfc as <-. apply max_dim1_fold.
  - intros [Hw0 _] Hin Hn. apply Hne. rewrite Hw0. lia.
Qed.


(** C5, amended.  Take a feature matrix in sparse form whose index bounds
    give the extents [m] and [n] (it stores an entry in the last row and in
    the last column) and the same matrix in dense form; give the sparse and
    the dense layer the same weight matrix, bias and iteration count, and
    switch dropout off (evaluation mode).  The sparse layer then returns
    the hops of ReLU (projection + bias) and the dense layer the hops of
    the projection, plus the bias: the same [k] hops with the same
    adjacency matrix, on matrices of the same shape.  The two projections,
    the sparse product and the dense product, are the same matrix in exact
    arithmetic (scalars that form a commutative semiring), where the hops
    are in both layers the product with the same matrix power. *)
Theorem sparse_and_dense_share_propagation
    (ls : SparseNGCNLayer.layer S) (ld : DenseNGCNLayer.layer S)
    (rng rng' : nat -> nat -> S) (adj fs : SparseMatrix S) (m n : nat) :
  SparseNGCNLayer.weight_matrix ls = DenseNGCNLayer.weight_matrix ld ->
  SparseNGCNLayer.bias ls = DenseNGCNLayer.bias ld ->
  SparseNGCNLayer.iterations ls = DenseNGCNLayer.iterations ld ->
  SparseNGCNLayer.training ls = false ->
  DenseNGCNLayer.training ld = false ->
  (0 <= SparseNGCNLayer.dropout_rate ls)%Q -> (SparseNGCNLayer.dropout_rate ls <= 1)%Q ->
  (0 <= DenseNGCNLayer.dropout_rate ld)%Q -> (DenseNGCNLayer.dropout_rate ld <= 1)%Q ->
  max_dim1 (indices fs) = Ok (Z.of_nat m - 1, Z.of_nat n - 1)%Z ->
  let fd := to_dense fs m n in
  let k := Z.to_nat (SparseNGCNLayer.iterations ls - 1) in
  let w := SparseNGCNLayer.weight_matrix ls in
  let b := SparseNGCNLayer.bias ls in
  SparseNGCNLayer.forward ls rng adj fs
  = (p <- spmm (indices fs) (values fs) (Z.of_nat m) (Z.of_nat n) w ;;
     x <- add p b ;;
     hops k adj (relu x))
  /\ DenseNGCNLayer.forward ld rng' adj fd
     = (p <- mm fd w ;; y <- hops k adj p ;; add y b)
  /\ (forall xs xd,
      shape0 b = 1 -> shape1 b = shape1 w ->
      sparse_before_loop ls rng fs = Ok xs ->
      dense_before_loop ld rng' fd = Ok xd ->
      shape0 xs = shape0 xd /\ shape1 xs = shape1 xd)
  /\ (ScalarLaws ->
      valid_sparse fs m n = true ->
      spmm (indices fs) (values fs) (Z.of_nat m) (Z.of_nat n) w = mm fd w)
  /\ (ScalarLaws ->
      valid_sparse fs m n = true ->
      valid_sparse adj m m = true ->
      shape0 b = 1 ->
      let a := to_dense adj m m in
      SparseNGCNLayer.forward ls rng adj fs
      = (p <- mm fd w ;; x <- add p b ;; Ok (mm_entries (mpow a k) (relu x)))
      /\ DenseNGCNLayer.forward ld rng' adj fd
         = (p <- mm fd w ;; add (mm_entries (mpow a k) p) b)).
Proof.
  intros Hw Hb Hk Hts Htd Hs0 Hs1 Hd0 Hd1 Hmax.
  set (fd := to_dense fs m n).
  set (k := Z.to_nat (SparseNGCNLayer.iterations ls - 1)).
  set (w := SparseNGCNLayer.weight_matrix ls).
  set (b := SparseNGCNLayer.bias ls).
  cbv zeta.
  assert (Hsparse : SparseNGCNLayer.forward ls rng adj fs
                    = (p <- spmm (indices fs) (values fs) (Z.of_nat m) (Z.of_nat n) w ;;
                       x <- add p b ;;
                       hops k adj (relu x))).
  { rewrite sparse_forward_hops. unfold sparse_before_loop.
    rewrite Hmax. cbn [bind fst snd].
    replace (Z.of_nat m - 1 + 1)%Z with (Z.of_nat m) by lia.
    replace (Z.of_nat n - 1 + 1)%Z with (Z.of_nat n) by lia.
    fold w b k.
    destruct (spmm (indices fs) (values fs) (Z.of_nat m) (Z.of_nat n) w) as [p|e];
      [|reflexivity].
    cbn [bind]. destruct (add p b) as [x|e]; [|reflexivity].
    cbn [bind]. rewrite Hts, (dropout_eval x _ rng Hs0 Hs1). reflexivity. }
  assert (Hdense : DenseNGCNLayer.forward ld rng' adj fd
                   = (p <- mm fd w ;; y <- hops k adj p ;; add y b)).
  { rewrite dense_forward_hops. unfold dense_before_loop.
    rewrite <- Hw, <- Hb, <- Hk. fold w b k.
    destruct (mm fd w) as [p|e]; [|reflexivity]. cbn [bind].
    rewrite Htd, (dropout_eval p _ rng' Hd0 Hd1). reflexivity. }
  assert (Hproj : ScalarLaws -> valid_sparse fs m n = true ->
                  spmm (indices fs) (values fs) (Z.of_nat m) (Z.of_nat n) w = mm fd w).
  { intros SR Hv. unfold mm. change (shape1 fd) with n.
    destruct (Nat.eqb_spec n (shape0 w)) as [Hn|Hn].
    - apply (spmm_dense SR fs m n w Hv (eq_sym Hn)).
    - unfold spmm.
      replace (Z.of_nat n =? Z.of_nat (shape0 w))%Z with false
        by (symmetry; apply Z.eqb_neq; lia).
      reflexivity. }
  split; [exact Hsparse|]. split; [exact Hdense|]. split; [|split; [exact Hproj|]].
  - intros xs xd Hb0 Hb1 Hxs Hxd.
    destruct (dense_before_loop_shape _ _ _ _ Hxd) as [Hd0' Hd1'].
    rewrite <- Hw in Hd1'. fold w in Hd1'.
    unfold sparse_before_loop in Hxs. rewrite Hmax in Hxs. cbn [bind fst snd] in Hxs.
    apply bind_Ok_inv in Hxs. destruct Hxs as [p [Hp Hxs]].
    apply bind_Ok_inv in Hxs. destruct Hxs as [y [Hy Hxs]].
    apply bind_Ok_inv in Hxs. destruct Hxs as [d [Hd Hxs]].
    injection Hxs as <-.
    apply spmm_shape in Hp. destruct Hp as [Hp0 Hp1]. fold w in Hp1.
    apply add_row_shape in Hy; [|exact Hb0|fold w b; congruence].
    destruct Hy as [Hy0 Hy1].
    apply dropout_shape in Hd. destruct Hd as [Hdd0 Hdd1].
    cbn [relu shape0 shape1 tabulate].
    change (shape0 fd) with m in Hd0'.
    split; [|congruence].
    rewrite Hdd0, Hy0, Hp0, Hd0'. lia.
  - intros SR Hv Hadj Hb0. rewrite Hsparse, Hdense, (Hproj SR Hv). split.
    + destruct (mm fd w) as [p|e] eqn:Hp; [|reflexivity]. cbn [bind].
      destruct (add p b) as [x|e] eqn:Hx; [|reflexivity]. cbn [bind].
      apply (hops_dense SR adj m k (relu x) Hadj); [apply wf_tabulate|].
      apply (add_row_shape0 _ _ _ Hb0) in Hx. apply mm_shape in Hp.
      cbn [relu shape0 tabulate]. destruct Hp as [Hp0 _].
      rewrite Hx, Hp0. reflexivity.
    + destruct (mm fd w) as [p|e] eqn:Hp; [|reflexivity]. cbn [bind].
      rewrite (hops_dense SR adj m k p Hadj); [reflexivity| |].
      * unfold mm in Hp. destruct (_ =? _); [|discriminate].
        injection Hp as <-. apply wf_tabulate.
      * apply mm_shape in Hp. destruct Hp as [Hp0 _]. rewrite Hp0. reflexivity.
Qed.

End Layers.

(** * The statements on the sample data *)

Section OnSampleData.
Import Torch TorchSparse.
Local Open Scope Z_scope.

(** Three iterations in training mode: two hops after the prologue. *)
Lemma sparse_forward_is_adjacency_power_witness :
  SparseNGCNLayer.iterations (Sample.sparse_layer 3 (1 # 2) true) = Z.of_nat 2 + 1
  /\ sparse_before_loop (Sample.sparse_layer 3 (1 # 2) true) Sample.rng Sample.features
     = Ok (mkTensor 4 2 [[22; 0]; [0; 0]; [30; 0]; [0; 0]])
  /\ valid_sparse Sample.adjacency 4 4 = true
  /\ SparseNGCNLayer.forward (Sample.sparse_layer 3 (1 # 2) true) Sample.rng
                             Sample.adjacency Sample.features
     = Ok (mm_entries (mpow (to_dense Sample.adjacency 4 4) 2)
                      (mkTensor 4 2 [[22; 0]; [0; 0]; [30; 0]; [0; 0]])).
Proof.
  split; [reflexivity|]. split; [reflexivity|]. split; [reflexivity|].
  apply (proj2 (sparse_forward_is_adjacency_power
                  (Sample.sparse_layer 3 (1 # 2) true) Sample.rng
                  Sample.adjacency Sample.features 2%nat eq_refl)
               Z_ScalarLaws
               (mkTensor 4 2 [[22; 0]; [0; 0]; [30; 0]; [0; 0]])).
  - reflexivity.
  - reflexivity.
Defined.

Lemma dense_forward_is_adjacency_power_witness :
  DenseNGCNLayer.iterations (Sample.dense_layer 3 (1 # 2) true) = Z.of_nat 2 + 1
  /\ dense_before_loop (Sample.dense_layer 3 (1 # 2) true) Sample.rng Sample.features_dense
     = Ok (mkTensor 4 2 [[2; 0]; [0; -8]; [10; 0]; [0; 8]])
  /\ valid_sparse Sample.adjacency 4 4 = true
  /\ DenseNGCNLayer.forward (Sample.dense_layer 3 (1 # 2) true) Sample.rng
                            Sample.adjacency Sample.features_dense
     = add (mm_entries (mpow (to_dense Sample.adjacency 4 4) 2)
                       (mkTensor 4 2 [[2; 0]; [0; -8]; [10; 0]; [0; 8]]))
           Sample.b.
Proof.
  split; [reflexivity|]. split; [reflexivity|]. split; [reflexivity|].
  apply (proj2 (dense_forward_is_adjacency_power
                  (Sample.dense_layer 3 (1 # 2) true) Sample.rng
                  Sample.adjacency Sample.features_dense 2%nat eq_refl)
               Z_ScalarLaws
               (mkTensor 4 2 [[2; 0]; [0; -8]; [10; 0]; [0; 8]])).
  - reflexivity.
  - reflexivity.
Defined.

Lemma forward_single_iteration_witness :
  SparseNGCNLayer.forward (Sample.sparse_layer 1 0 false) Sample.rng
                          Sample.adjacency Sample.features
  = Ok (mkTensor 4 2 [[11; 0]; [13; 0]; [15; 0]; [12; 0]])
  /\ DenseNGCNLayer.forward (Sample.dense_layer 1 0 false) Sample.rng
                            Sample.adjacency Sample.features_dense
     = Ok (mkTensor 4 2 [[11; -18]; [13; -24]; [15; -14]; [12; -16]]).
Proof.
  split.
  - exact (proj1 forward_single_iteration
                 (Sample.sparse_layer 1 0 false) Sample.rng
                 Sample.adjacency Sample.features eq_refl).
  - exact (proj2 forward_single_iteration
                 (Sample.dense_layer 1 0 false) Sample.rng
                 Sample.adjacency Sample.features_dense eq_refl).
Defined.

Lemma iterations_at_most_one_witness :
  SparseNGCNLayer.forward (Sample.sparse_layer (-4) 0 false) Sample.rng
                          Sample.adjacency Sample.features
  = SparseNGCNLayer.forward (sparse_with_iterations (Sample.sparse_layer (-4) 0 false) 1)
                            Sample.rng Sample.adjacency Sample.features
  /\ DenseNGCNLayer.forward (Sample.dense_layer 0 0 false) Sample.rng
                            Sample.adjacency Sample.features_dense
     = DenseNGCNLayer.forward (dense_with_iterations (Sample.dense_layer 0 0 false) 1)
                              Sample.rng Sample.adjacency Sample.features_dense
  /\ (exists self,
         SparseNGCNLayer.init Sample.available 3 2 0 0 Sample.device
                              Sample.draw_weight Sample.draw_bias
         = Ok self
         /\ SparseNGCNLayer.iterations self = 0
         /\ SparseNGCNLayer.init Sample.available 3 2 1 0 Sample.device
                                 Sample.draw_weight Sample.draw_bias
            = Ok (sparse_with_iterations self 1))
  /\ (exists self,
         DenseNGCNLayer.init Sample.available 3 2 (-1) 0 Sample.device
                             Sample.draw_weight Sample.draw_bias
         = Ok self
         /\ DenseNGCNLayer.iterations self = -1
         /\ DenseNGCNLayer.init Sample.available 3 2 1 0 Sample.device
                                Sample.draw_weight Sample.draw_bias
            = Ok (dense_with_iterations self 1)).
Proof.
  destruct (@iterations_at_most_one Z Z_Scalar) as [Hs [Hd [His Hid]]].
  split; [|split; [|split]].
  - apply Hs. cbn. lia.
  - apply Hd. cbn. lia.
  - apply His; [lia|lia|reflexivity|lia].
  - apply Hid; [lia|lia|reflexivity|lia].
Defined.

Lemma forward_deterministic_in_eval_mode_witness :
  dropout Sample.W (1 # 2) false Sample.rng = Ok Sample.W
  /\ SparseNGCNLayer.forward (Sample.sparse_layer 3 (1 # 2) false) Sample.rng
                             Sample.adjacency Sample.features
     = SparseNGCNLayer.forward (Sample.sparse_layer 3 (1 # 2) false) Sample.rng'
                               Sample.adjacency Sample.features
  /\ DenseNGCNLayer.forward (Sample.dense_layer 3 (1 # 2) false) Sample.rng
                            Sample.adjacency Sample.features_dense
     = DenseNGCNLayer.forward (Sample.dense_layer 3 (1 # 2) false) Sample.rng'
                              Sample.adjacency Sample.features_dense.
Proof.
  destruct (@forward_deterministic_in_eval_mode Z Z_Scalar) as [Hdrop [Hs Hd]].
  split; [|split].
  - apply Hdrop; unfold Qle; cbn; lia.
  - apply Hs. reflexivity.
  - apply Hd. reflexivity.
Defined.

(** C4 as first stated does not hold: both constructors accept the rate
    [3/2], outside [0, 1), together with the iteration count [0]. *)
Lemma init_accepts_invalid_configuration :
  ~ (3 # 2 < 1)%Q
  /\ 0 <= 0
  /\ SparseNGCNLayer.init Sample.available 3 2 0 (3 # 2) Sample.device
                          Sample.draw_weight Sample.draw_bias
     = Ok (SparseNGCNLayer.mkLayer 3 2 0 (3 # 2) Sample.device
             (mkTensor 3 2 [[-2; -1]; [-1; 0]; [0; 1]])
             (mkTensor 1 2 [[-1; 0]]) true)
  /\ DenseNGCNLayer.init Sample.available 3 2 0 (3 # 2) Sample.device
                         Sample.draw_weight Sample.draw_bias
     = Ok (DenseNGCNLayer.mkLayer 3 2 0 (3 # 2) Sample.device
             (mkTensor 3 2 [[-2; -1]; [-1; 0]; [0; 1]])
             (mkTensor 1 2 [[-1; 0]]) true).
Proof.
  split; [|split; [|split]].
  - unfold Qlt. cbn. lia.
  - lia.
  - reflexivity.
  - reflexivity.
Qed.

Lemma init_accepts_every_rate_and_count_witness :
  (exists self,
      SparseNGCNLayer.init Sample.available 3 2 0 (3 # 2) Sample.device
                           Sample.draw_weight Sample.draw_bias
      = Ok self
      /\ SparseNGCNLayer.iterations self = 0
      /\ SparseNGCNLayer.dropout_rate self = 3 # 2)
  /\ (exists self,
      DenseNGCNLayer.init Sample.available 3 2 0 (3 # 2) Sample.device
                          Sample.draw_weight Sample.draw_bias
      = Ok self
      /\ DenseNGCNLayer.iterations self = 0
      /\ DenseNGCNLayer.dropout_rate self = 3 # 2).
Proof.
  apply (init_accepts_every_rate_and_count Sample.available 3 2 0 (3 # 2)
           Sample.device Sample.draw_weight Sample.draw_bias);
    [lia|lia|reflexivity].
Defined.

Lemma forward_keeps_shape_witness :
  (shape0 (mkTensor 4 2 [[24; 0]; [11; 0]; [12; 0]; [15; 0]]) = 4%nat
   /\ shape1 (mkTensor 4 2 [[24; 0]; [11; 0]; [12; 0]; [15; 0]]) = 2%nat)
  /\ (exists x,
      sparse_before_loop (Sample.sparse_layer 3 0 false) Sample.rng Sample.features = Ok x
      /\ shape0 (mkTensor 4 2 [[35; 0]; [24; 0]; [15; 0]; [12; 0]]) = shape0 x
      /\ shape1 (mkTensor 4 2 [[35; 0]; [24; 0]; [15; 0]; [12; 0]]) = Z.to_nat 2)
  /\ (exists x,
      dense_before_loop (Sample.dense_layer 3 0 false) Sample.rng Sample.features_dense
      = Ok x
      /\ shape0 x = shape0 Sample.features_dense
      /\ shape0 (mkTensor 4 2 [[15; -20]; [14; -22]; [15; -14]; [12; -16]]) = shape0 x
      /\ shape1 (mkTensor 4 2 [[15; -20]; [14; -22]; [15; -14]; [12; -16]]) = Z.to_nat 2).
Proof.
  destruct (@forward_keeps_shape Z Z_Scalar) as [_ [_ [Hstep [Hs Hd]]]].
  split; [|split].
  - apply (Hstep Sample.adjacency
                 (mkTensor 4 2 [[11; 0]; [13; 0]; [15; 0]; [12; 0]])
                 (mkTensor 4 2 [[24; 0]; [11; 0]; [12; 0]; [15; 0]])).
    reflexivity.
  - apply (Hs (Sample.sparse_layer 3 0 false) Sample.rng Sample.adjacency
              Sample.features (mkTensor 4 2 [[35; 0]; [24; 0]; [15; 0]; [12; 0]])).
    + repeat split.
    + reflexivity.
  - apply (Hd (Sample.dense_layer 3 0 false) Sample.rng Sample.adjacency
              Sample.features_dense
              (mkTensor 4 2 [[15; -20]; [14; -22]; [15; -14]; [12; -16]])).
    + repeat split.
    + reflexivity.
Defined.

(** No feature in the last of the three columns: the column extent is two
    and the first sparse product refuses the weight matrix. *)
Lemma sparse_forward_extents_witness :
  max_dim1 (indices Sample.features_short) = Ok (3, 1)
  /\ 1 + 1 <> Z.of_nat (shape0 Sample.W)
  /\ SparseNGCNLayer.forward (Sample.sparse_layer 3 0 false) Sample.rng
                             Sample.adjacency Sample.features_short
     = Err DimensionError.
Proof.
  split; [reflexivity|]. split; [cbn; lia|].
  destruct (sparse_forward_extents (Sample.sparse_layer 3 0 false) Sample.rng
              Sample.adjacency Sample.features_short (3, 1) eq_refl)
    as [_ [_ [Hne _]]].
  apply Hne. cbn. lia.
Defined.


(** C5 as first stated does not hold.  A 4 by 3 feature matrix without an
    entry in its last column is refused by the sparse layer and accepted by
    the dense layer; one without an entry in its last row gives three rows
    in the sparse layer and four in the dense layer. *)
Lemma sparse_and_dense_differ_on_empty_border :
  (valid_sparse Sample.features_short 4 3 = true
   /\ SparseNGCNLayer.forward (Sample.sparse_layer 3 0 false) Sample.rng
                              Sample.adjacency Sample.features_short
      = Err DimensionError
   /\ DenseNGCNLayer.forward (Sample.dense_layer 3 0 false) Sample.rng
                             Sample.adjacency (to_dense Sample.features_short 4 3)
      = Ok (mkTensor 4 2 [[15; -20]; [14; -22]; [13; -24]; [12; -16]]))
  /\ (valid_sparse Sample.features_three_rows 4 3 = true
      /\ SparseNGCNLayer.forward (Sample.sparse_layer 1 0 false) Sample.rng
                                 Sample.adjacency Sample.features_three_rows
         = Ok (mkTensor 3 2 [[11; 0]; [13; 0]; [15; 0]])
      /\ DenseNGCNLayer.forward (Sample.dense_layer 1 0 false) Sample.rng
                                Sample.adjacency (to_dense Sample.features_three_rows 4 3)
         = Ok (mkTensor 4 2 [[11; -18]; [13; -24]; [15; -14]; [10; -20]])).
Proof.
  repeat split.
Qed.

(** The common projection of the sample features is
    [[1; 2]; [3; -4]; [5; 6]; [2; 4]]. *)
Lemma sparse_and_dense_share_propagation_witness :
  SparseNGCNLayer.forward (Sample.sparse_layer 3 (1 # 2) false) Sample.rng
                          Sample.adjacency Sample.features
  = (x <- add (mkTensor 4 2 [[1; 2]; [3; -4]; [5; 6]; [2; 4]]) Sample.b ;;
     hops 2 Sample.adjacency (relu x))
  /\ DenseNGCNLayer.forward (Sample.dense_layer 3 (1 # 2) false) Sample.rng'
                            Sample.adjacency Sample.features_dense
     = (y <- hops 2 Sample.adjacency (mkTensor 4 2 [[1; 2]; [3; -4]; [5; 6]; [2; 4]]) ;;
        add y Sample.b)
  /\ spmm (indices Sample.features) (values Sample.features) 4 3 Sample.W
     = mm Sample.features_dense Sample.W.
Proof.
  assert (Hq0 : (0 <= 1 # 2)%Q) by (unfold Qle; cbn; lia).
  assert (Hq1 : (1 # 2 <= 1)%Q) by (unfold Qle; cbn; lia).
  pose proof (sparse_and_dense_share_propagation
                (Sample.sparse_layer 3 (1 # 2) false)
                (Sample.dense_layer 3 (1 # 2) false)
                Sample.rng Sample.rng' Sample.adjacency Sample.features 4 3
                eq_refl eq_refl eq_refl eq_refl eq_refl
                Hq0 Hq1 Hq0 Hq1 eq_refl) as Hc.
  cbv zeta in Hc. destruct Hc as [Hs [Hd [_ [Hp _]]]].
  split; [exact Hs|]. split; [exact Hd|].
  exact (Hp Z_ScalarLaws eq_refl).
Defined.

End OnSampleData.

(** * Behaviour at the edges *)

(** ** Which sparse products and hops succeed *)

Section Acceptance.
Import Torch TorchSparse.
Context {S : Type} `{Scalar S}.

Lemma spmm_Err (index : list (Z * Z)) (value : list S) (m n : Z)
    (x : Tensor S) (e : error) :
  spmm index value m n x = Err e -> e = DimensionError.
Proof.
  unfold spmm, index_select, mul_values, scatter_add.
  destruct (n =? Z.of_nat (shape0 x))%Z; [|intros [= <-]; reflexivity].
  destruct (forallb _ (map snd index)); [|intros [= <-]; reflexivity].
  cbn [bind shape0 shape1 tabulate].
  destruct (broadcast_dim _ _); [|intros [= <-]; reflexivity].
  cbn [bind shape0 shape1 tabulate].
  destruct (_ && _); [|intros [= <-]; reflexivity].
  destruct (_ || _); [discriminate|intros [= <-]; reflexivity].
Qed.

Lemma broadcast_dim_cases (a b r : nat) :
  broadcast_dim a b = Some r -> (a = 1 /\ r = b) \/ (a <> 1 /\ r = a).
Proof.
  unfold broadcast_dim.
  destruct (Nat.eqb_spec a b), (Nat.eqb_spec a 1), (Nat.eqb_spec b 1);
    intros [= <-]; lia.
Qed.

(** A sparse product that succeeds was given a row extent that is not
    negative, a matrix with as many rows as the column extent says, and
    entries that fit. *)
Lemma spmm_Ok_fit (a : SparseMatrix S) (m n : Z) (x y : Tensor S) :
  spmm (indices a) (values a) m n x = Ok y ->
  (0 <= m)%Z /\ n = Z.of_nat (shape0 x)
  /\ entries_fit a (Z.to_nat m) (shape0 x) (shape1 x).
Proof.
  intros Hy. apply spmm_Ok_inv in Hy.
  destruct Hy as [r [Hn [Hcol [Hr [Hm [Hrow _]]]]]].
  split; [exact Hm|]. split; [exact Hn|]. split; [|split].
  - rewrite Hr. discriminate.
  - apply Forall_forall. intros e He.
    rewrite forallb_forall in Hcol.
    specialize (Hcol (snd e) (in_map snd _ _ He)).
    apply andb_true_iff in Hcol. destruct Hcol as [Hc0 Hc1].
    apply Z.leb_le in Hc0. apply Z.ltb_lt in Hc1. lia.
  - intros Hwidth Hvalues.
    destruct Hrow as [Hd|Hrow]; [contradiction|].
    rewrite forallb_forall in Hrow.
    apply Forall_forall. intros e He.
    destruct (In_nth _ _ (0, 0)%Z He) as [e0 [He0 Hnth]].
    assert (Hpos : exists e1, e1 < r
                   /\ (if length (indices a) =? 1 then 0 else e1) = e0).
    { destruct (broadcast_dim_cases _ _ _ Hr) as [[H1 Hrb]|[H1 Hra]].
      - exists 0. rewrite H1 in *. cbn [Nat.eqb]. split; [|lia].
        subst r. destruct (values a); [contradiction|cbn [length]; lia].
      - exists e0. split; [lia|].
        destruct (Nat.eqb_spec (length (indices a)) 1); [contradiction|reflexivity]. }
    destruct Hpos as [e1 [He1 Hb]].
    specialize (Hrow e1 (proj2 (in_seq _ _ _) (conj (Nat.le_0_l _) He1))).
    rewrite Hb, nth_map_fst, Hnth in Hrow.
    apply andb_true_iff in Hrow. destruct Hrow as [Hr0 Hr1].
    apply Z.leb_le in Hr0. apply Z.ltb_lt in Hr1. lia.
Qed.

Lemma hops_Err (k : nat) (adj : SparseMatrix S) (x : Tensor S) (e : error) :
  hops k adj x = Err e -> e = DimensionError.
Proof.
  revert x. induction k as [|k IH]; intros x; cbn [hops]; [discriminate|].
  destruct (spmm (indices adj) (values adj) (Z.of_nat (shape0 x))
                 (Z.of_nat (shape0 x)) x) as [y|e'] eqn:Hy; cbn [bind].
  - apply IH.
  - intros [= <-]. apply (spmm_Err _ _ _ _ _ _ Hy).
Qed.

(** Hops that succeed, when there is one to do, were given an adjacency
    matrix that fits the rows of the matrix. *)
Lemma hops_Ok_fit (k : nat) (adj : SparseMatrix S) (x y : Tensor S) :
  hops (Datatypes.S k) adj x = Ok y ->
  entries_fit adj (shape0 x) (shape0 x) (shape1 x).
Proof.
  cbn [hops]. intros Hy.
  apply bind_Ok_inv in Hy. destruct Hy as [z [Hz _]].
  apply spmm_Ok_fit in Hz. destruct Hz as [_ [_ Hfit]].
  rewrite Nat2Z.id in Hfit. exact Hfit.
Qed.

Lemma dropout_outcome (x : Tensor S) (p : Q) (training : bool) (rng : nat -> nat -> S) :
  dropout x p training rng
  = if rate_accepted p
    then Ok (if training
             then tabulate (shape0 x) (shape1 x) (fun i j => smul (get x i j) (rng i j))
             else x)
    else Err ConfigError.
Proof.
  unfold dropout, rate_accepted.
  destruct (Qle_bool 0 p), (Qle_bool p 1), training; reflexivity.
Qed.

Lemma add_Err (x y : Tensor S) (e : error) :
  add x y = Err e -> e = DimensionError.
Proof.
  unfold add.
  destruct (broadcast_dim (shape0 x) (shape0 y));
    [destruct (broadcast_dim (shape1 x) (shape1 y))|];
    [discriminate|intros [= <-]; reflexivity|intros [= <-]; reflexivity].
Qed.

Lemma sparse_projection_Err (self : SparseNGCNLayer.layer S)
    (features : SparseMatrix S) (e : error) :
  sparse_projection self features = Err e -> e = DimensionError.
Proof.
  unfold sparse_projection, max_dim1.
  destruct (indices features) as [|i rest]; [intros [= <-]; reflexivity|].
  cbn [bind].
  destruct (spmm _ _ _ _ _) as [p|e'] eqn:Hp; cbn [bind].
  - apply add_Err.
  - intros [= <-]. apply (spmm_Err _ _ _ _ _ _ Hp).
Qed.

Lemma sparse_before_loop_projection (self : SparseNGCNLayer.layer S)
    (rng : nat -> nat -> S) (features : SparseMatrix S) :
  sparse_before_loop self rng features
  = (b <- sparse_projection self features ;;
     d <- dropout b (SparseNGCNLayer.dropout_rate self)
                  (SparseNGCNLayer.training self) rng ;;
     Ok (relu d)).
Proof.
  unfold sparse_before_loop, sparse_projection.
  destruct (max_dim1 (indices features)) as [fc|e]; [|reflexivity]. cbn [bind].
  destruct (spmm _ _ _ _ _) as [p|e]; reflexivity.
Qed.

End Acceptance.

(** ** Construction and the errors of [forward] *)

Section Edges.
Import Torch TorchSparse.
Context {S : Type} `{Scalar S}.

(** X1.  The constructor of either layer succeeds exactly when the
    channel counts are not negative and not both zero and the device is one
    the host offers, whatever the iteration count and the rate are.  A
    negative channel count is a dimension error; otherwise a device that is
    empty or not offered is a device error; otherwise two zero channel
    counts are a dimension error.  A layer the constructor returns stores
    the channel counts, is in training mode, and holds a well-formed
    [in_channels] by [out_channels] weight matrix and a well-formed bias
    row of [out_channels] entries. *)
Theorem init_outcome
    (available : String.string -> bool)
    (inc outc k : Z) (p : Q) (dev : String.string) (dw db : nat -> nat -> S) :
  (channels_accepted inc outc = true ->
   device_accepted available dev = true ->
   (exists self,
       SparseNGCNLayer.init available inc outc k p dev dw db = Ok self
       /\ SparseNGCNLayer.in_channels self = inc
       /\ SparseNGCNLayer.out_channels self = outc
       /\ SparseNGCNLayer.training self = true
       /\ sparse_params_shaped self
       /\ wf (SparseNGCNLayer.weight_matrix self)
       /\ wf (SparseNGCNLayer.bias self))
   /\ (exists self,
       DenseNGCNLayer.init available inc outc k p dev dw db = Ok self
       /\ DenseNGCNLayer.in_channels self = inc
       /\ DenseNGCNLayer.out_channels self = outc
       /\ DenseNGCNLayer.training self = true
       /\ dense_params_shaped self
       /\ wf (DenseNGCNLayer.weight_matrix self)
       /\ wf (DenseNGCNLayer.bias self)))
  /\ ((inc < 0)%Z \/ (outc < 0)%Z ->
      SparseNGCNLayer.init available inc outc k p dev dw db = Err DimensionError
      /\ DenseNGCNLayer.init available inc outc k p dev dw db = Err DimensionError)
  /\ ((0 <= inc)%Z -> (0 <= outc)%Z ->
      device_accepted available dev = false ->
      SparseNGCNLayer.init available inc outc k p dev dw db = Err DeviceError
      /\ DenseNGCNLayer.init available inc outc k p dev dw db = Err DeviceError)
  /\ (inc = 0%Z -> outc = 0%Z ->
      device_accepted available dev = true ->
      SparseNGCNLayer.init available inc outc k p dev dw db = Err DimensionError
      /\ DenseNGCNLayer.init available inc outc k p dev dw db = Err DimensionError).
Proof.
  unfold channels_accepted. split; [|split; [|split]].
  - intros Hc Hdev.
    apply andb_true_iff in Hc. destruct Hc as [Hc Hsum].
    apply andb_true_iff in Hc. destruct Hc as [Hi Ho].
    apply Z.leb_le in Hi. apply Z.leb_le in Ho. apply Z.ltb_lt in Hsum.
    assert (Hs : SparseNGCNLayer.init available inc outc k p dev dw db
                 = Ok (SparseNGCNLayer.mkLayer inc outc k p dev
                         (tabulate (Z.to_nat inc) (Z.to_nat outc) dw)
                         (tabulate 1 (Z.to_nat outc) db) true)).
    { unfold SparseNGCNLayer.init, SparseNGCNLayer.define_parameters,
        SparseNGCNLayer.init_parameters, new_tensor, xavier_uniform_.
      replace (inc <? 0)%Z with false by (symmetry; apply Z.ltb_ge; lia).
      replace (outc <? 0)%Z with false by (symmetry; apply Z.ltb_ge; lia).
      cbn [orb bind Z.ltb Z.compare].
      rewrite !(to_accepted available _ dev Hdev).
      cbn [bind fst snd shape0 shape1 tabulate].
      replace (Z.to_nat outc + Z.to_nat inc =? 0) with false
        by (symmetry; apply Nat.eqb_neq; lia).
      cbn [bind fst snd shape0 shape1 tabulate].
      replace (Z.to_nat outc + Z.to_nat 1 =? 0) with false
        by (symmetry; apply Nat.eqb_neq; lia).
      reflexivity. }
    assert (Hd : DenseNGCNLayer.init available inc outc k p dev dw db
                 = Ok (DenseNGCNLayer.mkLayer inc outc k p dev
                         (tabulate (Z.to_nat inc) (Z.to_nat outc) dw)
                         (tabulate 1 (Z.to_nat outc) db) true)).
    { unfold DenseNGCNLayer.init, DenseNGCNLayer.define_parameters,
        DenseNGCNLayer.init_parameters, new_tensor, xavier_uniform_.
      replace (inc <? 0)%Z with false by (symmetry; apply Z.ltb_ge; lia).
      replace (outc <? 0)%Z with false by (symmetry; apply Z.ltb_ge; lia).
      cbn [orb bind Z.ltb Z.compare].
      rewrite !(to_accepted available _ dev Hdev).
      cbn [bind fst snd shape0 shape1 tabulate].
      replace (Z.to_nat outc + Z.to_nat inc =? 0) with false
        by (symmetry; apply Nat.eqb_neq; lia).
      cbn [bind fst snd shape0 shape1 tabulate].
      replace (Z.to_nat outc + Z.to_nat 1 =? 0) with false
        by (symmetry; apply Nat.eqb_neq; lia).
      reflexivity. }
    split; eexists; (split; [eassumption|]);
      repeat split; apply wf_tabulate.
  - intros Hneg.
    unfold SparseNGCNLayer.init, SparseNGCNLayer.define_parameters,
      DenseNGCNLayer.init, DenseNGCNLayer.define_parameters, new_tensor.
    replace ((inc <? 0) || (outc <? 0))%Z with true.
    + split; reflexivity.
    + symmetry. apply orb_true_iff.
      destruct Hneg as [Hi|Ho]; [left|right]; apply Z.ltb_lt; assumption.
  - intros Hi Ho Hdev.
    unfold SparseNGCNLayer.init, SparseNGCNLayer.define_parameters,
      DenseNGCNLayer.init, DenseNGCNLayer.define_parameters, new_tensor.
    replace (inc <? 0)%Z with false by (symmetry; apply Z.ltb_ge; lia).
    replace (outc <? 0)%Z with false by (symmetry; apply Z.ltb_ge; lia).
    cbn [orb bind]. rewrite (to_refused available _ dev Hdev).
    split; reflexivity.
  - intros -> -> Hdev.
    unfold SparseNGCNLayer.init, SparseNGCNLayer.define_parameters,
      SparseNGCNLayer.init_parameters,
      DenseNGCNLayer.init, DenseNGCNLayer.define_parameters,
      DenseNGCNLayer.init_parameters, new_tensor, xavier_uniform_.
    cbn [orb bind Z.ltb Z.compare].
    rewrite !(to_accepted available _ dev Hdev).
    split; reflexivity.
Qed.

(** X2.  A dropout rate the constructor has accepted is checked by
    [forward], in either mode: [forward] fails with a configuration error
    exactly when the rate lies outside [0, 1] and the projection it feeds
    to dropout could be computed. *)
Theorem forward_rejects_rate :
  (forall (self : SparseNGCNLayer.layer S) rng adj features,
      SparseNGCNLayer.forward self rng adj features = Err ConfigError
      <-> rate_accepted (SparseNGCNLayer.dropout_rate self) = false
          /\ exists b, sparse_projection self features = Ok b)
  /\ (forall (self : DenseNGCNLayer.layer S) rng adj features,
      DenseNGCNLayer.forward self rng adj features = Err ConfigError
      <-> rate_accepted (DenseNGCNLayer.dropout_rate self) = false
          /\ shape1 features = shape0 (DenseNGCNLayer.weight_matrix self)).
Proof.
  split; intros self rng adj features.
  - rewrite sparse_forward_hops, sparse_before_loop_projection.
    destruct (sparse_projection self features) as [b|e] eqn:Hb; cbn [bind].
    + rewrite dropout_outcome.
      destruct (rate_accepted (SparseNGCNLayer.dropout_rate self)); cbn [bind].
      * split; [|intros [Hr _]; discriminate].
        intros Hf.
        destruct (hops _ adj _) as [y|e] eqn:Hy; [discriminate|].
        apply hops_Err in Hy. congruence.
      * split; [intros _|reflexivity].
        split; [reflexivity|]. exists b. reflexivity.
    + apply sparse_projection_Err in Hb. subst e.
      split; [discriminate|]. intros [_ [b Hb]]. discriminate.
  - rewrite dense_forward_hops. unfold dense_before_loop, mm.
    destruct (Nat.eqb_spec (shape1 features)
                (shape0 (DenseNGCNLayer.weight_matrix self))) as [Hw|Hw]; cbn [bind].
    + rewrite dropout_outcome.
      destruct (rate_accepted (DenseNGCNLayer.dropout_rate self)); cbn [bind].
      * split; [|intros [Hr _]; discriminate].
        intros Hf.
        destruct (hops _ adj _) as [y|e] eqn:Hy; cbn [bind] in Hf.
        -- apply add_Err in Hf. discriminate.
        -- apply hops_Err in Hy. congruence.
      * split; [intros _|reflexivity]. split; [reflexivity|exact Hw].
    + split; [discriminate|]. intros [_ Hw']. contradiction.
Qed.

End Edges.

(** ** What [forward] requires of its inputs *)

Section ForwardRequires.
Import Torch TorchSparse.
Context {S : Type} `{Scalar S}.

(** X3.  Whenever the sparse layer (with parameters shaped as the
    constructor shapes them) returns a matrix, the features had an entry,
    one plus their largest column index was the row count of the weight
    matrix, their entries fitted (values and entries broadcast against each
    other, no negative column index, and no negative row index when there
    is an output column and a value), the rate lay in [0, 1], and, for
    [iterations >= 2], the entries of the adjacency matrix fitted the row
    extent of the features.  Every input that misses one of these raises an
    error. *)
Theorem sparse_forward_requires
    (self : SparseNGCNLayer.layer S) (rng : nat -> nat -> S)
    (adj features : SparseMatrix S) (out : Tensor S) :
  sparse_params_shaped self ->
  SparseNGCNLayer.forward self rng adj features = Ok out ->
  exists fc,
    max_dim1 (indices features) = Ok fc
    /\ (snd fc + 1)%Z = Z.of_nat (shape0 (SparseNGCNLayer.weight_matrix self))
    /\ entries_fit features (Z.to_nat (fst fc + 1))
                    (shape0 (SparseNGCNLayer.weight_matrix self))
                    (shape1 (SparseNGCNLayer.weight_matrix self))
    /\ rate_accepted (SparseNGCNLayer.dropout_rate self) = true
    /\ ((2 <= SparseNGCNLayer.iterations self)%Z ->
        entries_fit adj (Z.to_nat (fst fc + 1)) (Z.to_nat (fst fc + 1))
                    (shape1 (SparseNGCNLayer.weight_matrix self))).
Proof.
  intros Hs Hout. rewrite sparse_forward_hops in Hout.
  apply bind_Ok_inv in Hout. destruct Hout as [x [Hx Hout]].
  destruct (sparse_before_loop_shape _ _ _ _ Hs Hx) as [fc [Hfc [Hx0 Hx1]]].
  destruct Hs as [_ [Hw1 _]].
  rewrite sparse_before_loop_projection in Hx.
  apply bind_Ok_inv in Hx. destruct Hx as [b [Hb Hx]].
  rewrite dropout_outcome in Hx.
  destruct (rate_accepted (SparseNGCNLayer.dropout_rate self)) eqn:Hr;
    [|discriminate].
  unfold sparse_projection in Hb. rewrite Hfc in Hb. cbn [bind] in Hb.
  apply bind_Ok_inv in Hb. destruct Hb as [p [Hp _]].
  apply spmm_Ok_fit in Hp. destruct Hp as [_ [Hn Hfit]].
  exists fc. split; [exact Hfc|]. split; [exact Hn|]. split; [exact Hfit|].
  split; [reflexivity|].
  intros HK.
  replace (Z.to_nat (SparseNGCNLayer.iterations self - 1))
    with (Datatypes.S (Z.to_nat (SparseNGCNLayer.iterations self - 2))) in Hout by lia.
  apply hops_Ok_fit in Hout. rewrite Hx0, Hx1, <- Hw1 in Hout. exact Hout.
Qed.

(** X4.  Whenever the dense layer returns a matrix, the features were as
    wide as the weight matrix is high, the rate lay in [0, 1], and, for
    [iterations >= 2], the entries of the adjacency matrix fitted the row
    count of the features (values and entries broadcast against each other,
    column indices inside the rows, and row indices inside them when there
    is an output column and a value).  Every input that misses one of these
    raises an error. *)
Theorem dense_forward_requires
    (self : DenseNGCNLayer.layer S) (rng : nat -> nat -> S)
    (adj : SparseMatrix S) (features out : Tensor S) :
  DenseNGCNLayer.forward self rng adj features = Ok out ->
  shape1 features = shape0 (DenseNGCNLayer.weight_matrix self)
  /\ rate_accepted (DenseNGCNLayer.dropout_rate self) = true
  /\ ((2 <= DenseNGCNLayer.iterations self)%Z ->
      entries_fit adj (shape0 features) (shape0 features)
                  (shape1 (DenseNGCNLayer.weight_matrix self))).
Proof.
  intros Hout. rewrite dense_forward_hops in Hout.
  apply bind_Ok_inv in Hout. destruct Hout as [x [Hx Hout]].
  apply bind_Ok_inv in Hout. destruct Hout as [y [Hy _]].
  destruct (dense_before_loop_shape _ _ _ _ Hx) as [Hx0 Hx1].
  unfold dense_before_loop, mm in Hx.
  destruct (Nat.eqb_spec (shape1 features)
              (shape0 (DenseNGCNLayer.weight_matrix self))) as [Hw|];
    [|discriminate].
  cbn [bind] in Hx. rewrite dropout_outcome in Hx.
  destruct (rate_accepted (DenseNGCNLayer.dropout_rate self)); [|discriminate].
  split; [exact Hw|]. split; [reflexivity|].
  intros HK.
  replace (Z.to_nat (DenseNGCNLayer.iterations self - 1))
    with (Datatypes.S (Z.to_nat (DenseNGCNLayer.iterations self - 2))) in Hy by lia.
  apply hops_Ok_fit in Hy. rewrite Hx0, Hx1 in Hy. exact Hy.
Qed.

End ForwardRequires.

(** ** One more iteration; a graph without edges *)

Section MoreIterations.
Import Torch TorchSparse.
Context {S : Type} `{Scalar S}.

(** X5.  Raising the iteration count of the sparse layer by one, from a
    count of at least one, multiplies its result once more by the adjacency
    matrix: the result for [K + 1] is one sparse product applied to the
    result for [K], and fails when the result for [K] fails. *)
Theorem sparse_one_more_iteration
    (self : SparseNGCNLayer.layer S) (rng : nat -> nat -> S)
    (adj features : SparseMatrix S) (K : Z) :
  (1 <= K)%Z ->
  SparseNGCNLayer.forward (sparse_with_iterations self (K + 1)) rng adj features
  = (y <- SparseNGCNLayer.forward (sparse_with_iterations self K) rng adj features ;;
     spmm (indices adj) (values adj)
          (Z.of_nat (shape0 y)) (Z.of_nat (shape0 y)) y).
Proof.
  intros HK. rewrite !sparse_forward_hops.
  cbn [sparse_with_iterations SparseNGCNLayer.iterations].
  change (sparse_before_loop (sparse_with_iterations self (K + 1)) rng features)
    with (sparse_before_loop self rng features).
  change (sparse_before_loop (sparse_with_iterations self K) rng features)
    with (sparse_before_loop self rng features).
  replace (Z.to_nat (K + 1 - 1)) with (Datatypes.S (Z.to_nat (K - 1))) by lia.
  destruct (sparse_before_loop self rng features) as [x|e]; [|reflexivity].
  cbn [bind]. apply hops_snoc.
Qed.

Lemma get_tabulate_any (r c : nat) (f : nat -> nat -> S) (i j : nat) :
  get (tabulate r c f) i j = if (i <? r) && (j <? c) then f i j else szero.
Proof.
  destruct (Nat.ltb_spec i r) as [Hi|Hi]; cbn [andb].
  - destruct (Nat.ltb_spec j c) as [Hj|Hj].
    + apply get_tabulate; assumption.
    + unfold get, tabulate. cbn [data].
      rewrite nth_map_seq by exact Hi.
      apply nth_overflow. rewrite length_map, length_seq. exact Hj.
  - unfold get, tabulate. cbn [data].
    rewrite (nth_overflow _ []) by (rewrite length_map, length_seq; exact Hi).
    destruct j; reflexivity.
Qed.

Lemma get_zeros (r c i j : nat) : get (zeros r c) i j = szero.
Proof.
  unfold zeros. rewrite get_tabulate_any.
  destruct ((i <? r) && (j <? c)); reflexivity.
Qed.

Lemma spmm_no_edges (x : Tensor S) :
  spmm [] [] (Z.of_nat (shape0 x)) (Z.of_nat (shape0 x)) x
  = Ok (zeros (shape0 x) (shape1 x)).
Proof.
  apply (spmm_valid (mkSparse [] []) (shape0 x) (shape0 x) x eq_refl eq_refl).
Qed.

Lemma hops_no_edges (k : nat) (x : Tensor S) :
  hops (Datatypes.S k) (mkSparse [] []) x = Ok (zeros (shape0 x) (shape1 x)).
Proof.
  revert x. induction k as [|k IH]; intros x.
  - cbn [hops indices values]. rewrite spmm_no_edges. reflexivity.
  - change (hops (Datatypes.S (Datatypes.S k)) (mkSparse [] []) x)
      with (z <- spmm [] [] (Z.of_nat (shape0 x)) (Z.of_nat (shape0 x)) x ;;
            hops (Datatypes.S k) (mkSparse [] []) z).
    rewrite spmm_no_edges. cbn [bind]. rewrite IH. reflexivity.
Qed.

(** X6.  On a graph without edges and with [iterations >= 2], the sparse
    layer returns the zero matrix whenever its prologue succeeds, and the
    dense layer returns the bias (plus zero) on every row: the values of
    the features do not reach the output. *)
Theorem forward_without_edges :
  (forall (self : SparseNGCNLayer.layer S) rng features,
      (2 <= SparseNGCNLayer.iterations self)%Z ->
      SparseNGCNLayer.forward self rng (mkSparse [] []) features
      = (x <- sparse_before_loop self rng features ;;
         Ok (zeros (shape0 x) (shape1 x))))
  /\ (forall (self : DenseNGCNLayer.layer S) rng features,
      (2 <= DenseNGCNLayer.iterations self)%Z ->
      dense_params_shaped self ->
      shape1 features = shape0 (DenseNGCNLayer.weight_matrix self) ->
      rate_accepted (DenseNGCNLayer.dropout_rate self) = true ->
      DenseNGCNLayer.forward self rng (mkSparse [] []) features
      = Ok (tabulate (shape0 features)
                     (Z.to_nat (DenseNGCNLayer.out_channels self))
                     (fun _ j => sadd szero (get (DenseNGCNLayer.bias self) 0 j)))).
Proof.
  split.
  - intros self rng features HK. rewrite sparse_forward_hops.
    replace (Z.to_nat (SparseNGCNLayer.iterations self - 1))
      with (Datatypes.S (Z.to_nat (SparseNGCNLayer.iterations self - 2))) by lia.
    destruct (sparse_before_loop self rng features) as [x|e]; [|reflexivity].
    cbn [bind]. apply hops_no_edges.
  - intros self rng features HK [_ [Hw1 [Hb0 Hb1]]] Hw Hr.
    rewrite dense_forward_hops.
    replace (Z.to_nat (DenseNGCNLayer.iterations self - 1))
      with (Datatypes.S (Z.to_nat (DenseNGCNLayer.iterations self - 2))) by lia.
    assert (Hx : exists x, dense_before_loop self rng features = Ok x).
    { unfold dense_before_loop, mm. rewrite Hw, Nat.eqb_refl. cbn [bind].
      rewrite dropout_outcome, Hr. eexists. reflexivity. }
    destruct Hx as [x Hx]. rewrite Hx. cbn [bind].
    destruct (dense_before_loop_shape _ _ _ _ Hx) as [Hx0 Hx1].
    rewrite hops_no_edges. cbn [bind].
    unfold add, broadcast_dim. cbn [shape0 shape1 zeros tabulate].
    rewrite Hb0, Hb1, Hx0, Hx1, Hw1, !Nat.eqb_refl.
    assert (Hentry : forall i j,
               j < Z.to_nat (DenseNGCNLayer.out_channels self) ->
               sadd (get (zeros (shape0 features)
                                (Z.to_nat (DenseNGCNLayer.out_channels self)))
                         i
                         (if Z.to_nat (DenseNGCNLayer.out_channels self) =? 1
                          then 0 else j))
                    (get (DenseNGCNLayer.bias self) 0
                         (if Z.to_nat (DenseNGCNLayer.out_channels self) =? 1
                          then 0 else j))
               = sadd szero (get (DenseNGCNLayer.bias self) 0 j)).
    { intros i j Hj. rewrite get_zeros. f_equal.
      destruct (Nat.eqb_spec (Z.to_nat (DenseNGCNLayer.out_channels self)) 1)
        as [Ho|_]; [|reflexivity].
      replace j with 0 by lia. reflexivity. }
    destruct (shape0 features =? 1); f_equal; apply tabulate_ext;
      intros i j Hi Hj; apply Hentry; exact Hj.
Qed.

End MoreIterations.

(** ** Signs of the output of the sparse layer *)

Section Signs.
Import Torch TorchSparse.
Context {S : Type} `{Scalar S}.
Hypothesis OL : OrderLaws.

Lemma nonneg_zero : nonneg szero.
Proof. exact (proj1 OL). Qed.

Lemma fold_left_sadd_nonneg (l : list S) (a : S) :
  nonneg a -> Forall nonneg l -> nonneg (fold_left sadd l a).
Proof.
  revert a. induction l as [|b l IH]; intros a Ha Hl; cbn [fold_left].
  - exact Ha.
  - inversion Hl as [|b' l' Hb Hl']; subst.
    apply IH; [|exact Hl'].
    destruct OL as [_ [_ [Hadd _]]]. apply Hadd; assumption.
Qed.

Lemma nth_nonneg (l : list S) (e : nat) :
  Forall nonneg l -> nonneg (nth e l szero).
Proof.
  intros Hl. destruct (nth_in_or_default e l szero) as [Hin| ->].
  - rewrite Forall_forall in Hl. apply Hl. exact Hin.
  - apply nonneg_zero.
Qed.

Lemma relu_nonneg (d : Tensor S) (i j : nat) : nonneg (get (relu d) i j).
Proof.
  unfold relu. rewrite get_tabulate_any.
  destruct ((i <? shape0 d) && (j <? shape1 d)); [|apply nonneg_zero].
  destruct (sleb (get d i j) szero) eqn:E; [apply nonneg_zero|].
  destruct OL as [_ [Hneg _]]. apply Hneg. exact E.
Qed.

(** A hop with weights that are not negative keeps entries that are not
    negative. *)
Lemma hop_nonneg (adj : SparseMatrix S) (x y : Tensor S) :
  Forall nonneg (values adj) ->
  (forall i j, nonneg (get x i j)) ->
  spmm (indices adj) (values adj) (Z.of_nat (shape0 x)) (Z.of_nat (shape0 x)) x = Ok y ->
  forall i j, nonneg (get y i j).
Proof.
  intros Hv Hx Hy i j.
  apply spmm_Ok_inv in Hy. destruct Hy as [r [_ [_ [_ [_ [_ ->]]]]]].
  rewrite get_tabulate_any.
  destruct ((i <? Z.to_nat (Z.of_nat (shape0 x))) && (j <? shape1 x));
    [|apply nonneg_zero].
  apply fold_left_sadd_nonneg; [apply nonneg_zero|].
  apply Forall_forall. intros t Ht. apply in_map_iff in Ht.
  destruct Ht as [e [<- _]].
  destruct OL as [_ [_ [_ Hmul]]]. apply Hmul; [apply Hx|].
  apply nth_nonneg. exact Hv.
Qed.

Lemma hops_nonneg (k : nat) (adj : SparseMatrix S) (x y : Tensor S) :
  Forall nonneg (values adj) ->
  (forall i j, nonneg (get x i j)) ->
  hops k adj x = Ok y ->
  forall i j, nonneg (get y i j).
Proof.
  intros Hv. revert x. induction k as [|k IH]; intros x Hx Hy.
  - cbn [hops] in Hy. injection Hy as <-. exact Hx.
  - cbn [hops] in Hy. apply bind_Ok_inv in Hy. destruct Hy as [z [Hz Hy]].
    apply (IH z); [|exact Hy].
    apply (hop_nonneg adj x z Hv Hx Hz).
Qed.

End Signs.

Section SignsOfForward.
Import Torch TorchSparse.
Context {S : Type} `{Scalar S}.

(** X7.  When no weight of the adjacency matrix is negative, no entry of
    the output of the sparse layer is negative, for every iteration count
    and in either mode: ReLU is the last step before the hops, and a hop
    only adds products of entries and weights.  The scalars need an order
    in which [0 <= 0], an [a] that is not [<= 0] satisfies [0 <= a], and
    sums and products of non-negative scalars are non-negative. *)
Theorem sparse_output_nonnegative
    (self : SparseNGCNLayer.layer S) (rng : nat -> nat -> S)
    (adj features : SparseMatrix S) (out : Tensor S) :
  OrderLaws ->
  Forall nonneg (values adj) ->
  SparseNGCNLayer.forward self rng adj features = Ok out ->
  forall i j, i < shape0 out -> j < shape1 out -> nonneg (get out i j).
Proof.
  intros OL Hv Hout i j _ _.
  rewrite sparse_forward_hops in Hout.
  apply bind_Ok_inv in Hout. destruct Hout as [x [Hx Hout]].
  eapply (hops_nonneg OL _ adj x out Hv); [|exact Hout].
  rewrite sparse_before_loop_projection in Hx.
  apply bind_Ok_inv in Hx. destruct Hx as [b [_ Hx]].
  apply bind_Ok_inv in Hx. destruct Hx as [d [_ Hx]].
  injection Hx as <-. apply (relu_nonneg OL).
Qed.

End SignsOfForward.

(** ** [__repr__] *)

Section Repr.
Import String Ascii.
Local Open Scope string_scope.

Lemma append_assoc (a b c : string) : (a ++ b) ++ c = a ++ (b ++ c).
Proof.
  induction a as [|x a IH]; cbn [append]; [reflexivity|].
  rewrite IH. reflexivity.
Qed.

Lemma append_inj_l (a b c : string) : a ++ b = a ++ c -> b = c.
Proof.
  induction a as [|x a IH]; cbn [append]; intros E; [exact E|].
  injection E as E. apply IH. exact E.
Qed.

(** Two strings free of [c], each followed by [c], split a string at the
    same place. *)
Lemma append_split (c : ascii) (s s' r r' : string) :
  occurs c s = false -> occurs c s' = false ->
  s ++ String c r = s' ++ String c r' ->
  s = s' /\ r = r'.
Proof.
  revert s'. induction s as [|x s IH]; intros [|x' s'] Hs Hs' E;
    cbn [append occurs] in *.
  - injection E as E. split; [reflexivity|exact E].
  - injection E as Ec _. subst x'.
    rewrite Ascii.eqb_refl in Hs'. discriminate.
  - injection E as Ec _. subst x.
    rewrite Ascii.eqb_refl in Hs. discriminate.
  - injection E as Ex E. subst x'.
    apply orb_false_iff in Hs. destruct Hs as [_ Hs].
    apply orb_false_iff in Hs'. destruct Hs' as [_ Hs'].
    destruct (IH s' Hs Hs' E) as [-> ->]. split; reflexivity.
Qed.

Lemma occurs_string_of_uint (c : ascii) (d : Decimal.uint) :
  occurs c "0123456789" = false ->
  occurs c (DecimalString.NilEmpty.string_of_uint d) = false.
Proof.
  intros Hc. cbn [occurs] in Hc.
  repeat (apply orb_false_iff in Hc; destruct Hc as [? Hc]).
  induction d; cbn [DecimalString.NilEmpty.string_of_uint occurs];
    [reflexivity|rewrite IHd, orb_false_r; assumption ..].
Qed.

Lemma occurs_str (c : ascii) (n : Z) :
  occurs c "0123456789-" = false -> occurs c (str n) = false.
Proof.
  intros Hc.
  assert (Hdigits : occurs c "0123456789" = false).
  { cbn [occurs] in Hc |- *.
    repeat (apply orb_false_iff in Hc; destruct Hc as [? Hc]).
    repeat (apply orb_false_iff; split; try assumption). }
  assert (Hminus : Ascii.eqb "-" c = false).
  { cbn [occurs] in Hc.
    repeat (apply orb_false_iff in Hc; destruct Hc as [? Hc]). assumption. }
  assert (Hzero : Ascii.eqb "0" c = false).
  { cbn [occurs] in Hdigits.
    apply orb_false_iff in Hdigits. destruct Hdigits as [Hz _]. exact Hz. }
  assert (Hu : forall d, occurs c (DecimalString.NilZero.string_of_uint d) = false).
  { intros d. unfold DecimalString.NilZero.string_of_uint.
    destruct d; try apply (occurs_string_of_uint c _ Hdigits).
    cbn [occurs]. rewrite Hzero. reflexivity. }
  unfold str, DecimalString.NilZero.string_of_int.
  destruct (Z.to_int n) as [d|d]; [apply Hu|].
  cbn [occurs]. rewrite Hminus, Hu. reflexivity.
Qed.

Lemma str_inj (a b : Z) : str a = str b -> a = b.
Proof.
  assert (Hnil : forall n, Z.to_int n <> Decimal.Pos Decimal.Nil
                           /\ Z.to_int n <> Decimal.Neg Decimal.Nil).
  { intros [|p|p]; cbn [Z.to_int]; split; try discriminate;
      intros [= E]; apply (DecimalPos.Unsigned.to_uint_nonnil p E). }
  unfold str. intros E.
  apply (f_equal DecimalString.NilZero.int_of_string) in E.
  rewrite !DecimalString.NilZero.isi in E by apply Hnil.
  injection E as E. apply DecimalZ.to_int_inj. exact E.
Qed.

(** After its class name, the text has the two counts around an arrow. *)
Lemma repr_split (a b a' b' : Z) :
  str a ++ " -> " ++ str b ++ ")" = str a' ++ " -> " ++ str b' ++ ")" ->
  a = a' /\ b = b'.
Proof.
  intros E.
  apply (append_split " ") in E; try (apply occurs_str; reflexivity).
  destruct E as [Ea E]. apply str_inj in Ea.
  injection E as E.
  apply (append_split ")") in E; try (apply occurs_str; reflexivity).
  destruct E as [Eb _]. apply str_inj in Eb.
  split; assumption.
Qed.

Context {S : Type} `{Scalar S}.

Lemma sparse_repr_text (self : SparseNGCNLayer.layer S) :
  SparseNGCNLayer.repr self
  = "SparseNGCNLayer (" ++ str (SparseNGCNLayer.in_channels self) ++ " -> "
    ++ str (SparseNGCNLayer.out_channels self) ++ ")".
Proof.
  unfold SparseNGCNLayer.repr. rewrite !append_assoc. reflexivity.
Qed.

Lemma dense_repr_text (self : DenseNGCNLayer.layer S) :
  DenseNGCNLayer.repr self
  = "DenseNGCNLayer (" ++ str (DenseNGCNLayer.in_channels self) ++ " -> "
    ++ str (DenseNGCNLayer.out_channels self) ++ ")".
Proof.
  unfold DenseNGCNLayer.repr. rewrite !append_assoc. reflexivity.
Qed.

(** X10.  The text [__repr__] returns tells the class and the two channel
    counts apart: two layers of one class with the same text have the same
    [in_channels] and the same [out_channels], and a sparse and a dense
    layer never have the same text.  Nothing else of the layer shows in
    it. *)
Theorem repr_determines_class_and_channels :
  (forall self self' : SparseNGCNLayer.layer S,
      SparseNGCNLayer.repr self = SparseNGCNLayer.repr self' ->
      SparseNGCNLayer.in_channels self = SparseNGCNLayer.in_channels self'
      /\ SparseNGCNLayer.out_channels self = SparseNGCNLayer.out_channels self')
  /\ (forall self self' : DenseNGCNLayer.layer S,
      DenseNGCNLayer.repr self = DenseNGCNLayer.repr self' ->
      DenseNGCNLayer.in_channels self = DenseNGCNLayer.in_channels self'
      /\ DenseNGCNLayer.out_channels self = DenseNGCNLayer.out_channels self')
  /\ (forall (s : SparseNGCNLayer.layer S) (d : DenseNGCNLayer.layer S),
      SparseNGCNLayer.repr s <> DenseNGCNLayer.repr d)
  /\ (forall self self' : SparseNGCNLayer.layer S,
      SparseNGCNLayer.in_channels self = SparseNGCNLayer.in_channels self' ->
      SparseNGCNLayer.out_channels self = SparseNGCNLayer.out_channels self' ->
      SparseNGCNLayer.repr self = SparseNGCNLayer.repr self').
Proof.
  split; [|split; [|split]].
  - intros self self' E. rewrite !sparse_repr_text in E.
    apply append_inj_l in E. apply repr_split. exact E.
  - intros self self' E. rewrite !dense_repr_text in E.
    apply append_inj_l in E. apply repr_split. exact E.
  - intros s d E. rewrite sparse_repr_text, dense_repr_text in E.
    cbn [append] in E. discriminate.
  - intros self self' Hi Ho. unfold SparseNGCNLayer.repr.
    rewrite Hi, Ho. reflexivity.
Qed.

End Repr.

(** ** A node without features *)

Section NodeWithoutFeatures.
Import Torch TorchSparse.
Context {S : Type} `{Scalar S}.

Lemma filter_none (A : Type) (p : A -> bool) (l : list A) :
  (forall a, In a l -> p a = false) -> filter p l = [].
Proof.
  induction l as [|a l IH]; intros Hp; cbn [filter]; [reflexivity|].
  rewrite (Hp a (or_introl eq_refl)). apply IH.
  intros b Hb. apply Hp. right. exact Hb.
Qed.

(** A row that no entry of the sparse matrix names is zero in the
    product. *)
Lemma spmm_row_without_entries (a : SparseMatrix S) (m n : Z)
    (x y : Tensor S) (i k : nat) :
  spmm (indices a) (values a) m n x = Ok y ->
  (forall e, In e (indices a) -> fst e <> Z.of_nat i) ->
  get y i k = szero.
Proof.
  intros Hy Hrow.
  apply spmm_Ok_inv in Hy. destruct Hy as [r [_ [_ [Hr [_ [_ ->]]]]]].
  rewrite get_tabulate_any.
  destruct ((i <? Z.to_nat m) && (k <? shape1 x)); [|reflexivity].
  rewrite filter_none; [reflexivity|].
  intros e He. apply in_seq in He. apply Z.eqb_neq.
  rewrite nth_map_fst. apply Hrow. apply nth_In.
  apply (broadcast_index_lt _ _ r e Hr). lia.
Qed.

(** Adding a bias row adds its entry of the same column. *)
Lemma add_row_entry (x b y : Tensor S) (i j : nat) :
  shape0 b = 1 -> shape1 b = shape1 x ->
  add x b = Ok y ->
  i < shape0 x -> j < shape1 x ->
  get y i j = sadd (get x i j) (get b 0 j).
Proof.
  intros Hb0 Hb1. unfold add, broadcast_dim. rewrite Hb0, Hb1, !Nat.eqb_refl.
  intros Hy Hi Hj.
  assert (Hentry :
    sadd (get x (if shape0 x =? 1 then 0 else i) (if shape1 x =? 1 then 0 else j))
         (get b 0 (if shape1 x =? 1 then 0 else j))
    = sadd (get x i j) (get b 0 j)).
  { destruct (Nat.eqb_spec (shape0 x) 1) as [H0|_];
      destruct (Nat.eqb_spec (shape1 x) 1) as [H1|_];
      try (replace i with 0 by lia); try (replace j with 0 by lia); reflexivity. }
  destruct (shape0 x =? 1) eqn:E; injection Hy as <-;
    rewrite get_tabulate by assumption; rewrite ?E; exact Hentry.
Qed.

(** X11.  A node that no entry of the features names, below the largest
    row index, has a zero row in the projection: in evaluation mode and
    with [iterations <= 1] its row of the output of the sparse layer is
    ReLU of zero plus the bias, whatever the other features are. *)
Theorem sparse_row_without_features
    (self : SparseNGCNLayer.layer S) (rng : nat -> nat -> S)
    (adj features : SparseMatrix S) (out : Tensor S) (i k : nat) :
  sparse_params_shaped self ->
  (SparseNGCNLayer.iterations self <= 1)%Z ->
  SparseNGCNLayer.training self = false ->
  SparseNGCNLayer.forward self rng adj features = Ok out ->
  (forall e, In e (indices features) -> fst e <> Z.of_nat i) ->
  i < shape0 out -> k < shape1 out ->
  get out i k
  = (if sleb (sadd szero (get (SparseNGCNLayer.bias self) 0 k)) szero
     then szero
     else sadd szero (get (SparseNGCNLayer.bias self) 0 k)).
Proof.
  intros [_ [Hw1 [Hb0 Hb1]]] HK Ht Hout Hrow Hi Hk.
  rewrite sparse_forward_hops in Hout.
  replace (Z.to_nat (SparseNGCNLayer.iterations self - 1)) with 0 in Hout by lia.
  cbn [hops] in Hout. rewrite bind_Ok_r, sparse_before_loop_projection in Hout.
  apply bind_Ok_inv in Hout. destruct Hout as [b [Hb Hout]].
  rewrite dropout_outcome, Ht in Hout.
  destruct (rate_accepted (SparseNGCNLayer.dropout_rate self)); [|discriminate].
  cbn [bind] in Hout. injection Hout as <-.
  cbn [relu shape0 shape1 tabulate] in Hi, Hk.
  unfold relu. rewrite get_tabulate by assumption.
  unfold sparse_projection in Hb.
  apply bind_Ok_inv in Hb. destruct Hb as [fc [_ Hb]].
  apply bind_Ok_inv in Hb. destruct Hb as [p [Hp Hb]].
  destruct (spmm_shape _ _ _ _ _ _ Hp) as [Hp0 Hp1].
  destruct (add_row_shape p _ b Hb0 ltac:(congruence) Hb) as [Hbp0 Hbp1].
  rewrite (add_row_entry p _ b i k Hb0 ltac:(congruence) Hb)
    by congruence.
  rewrite (spmm_row_without_entries features _ _ _ p i k Hp Hrow).
  reflexivity.
Qed.

End NodeWithoutFeatures.

(** ** The statements at the edges on the sample data *)

(** The order of the integers satisfies the laws. *)
Lemma Z_OrderLaws : @OrderLaws Z Z_Scalar.
Proof.
  unfold OrderLaws, nonneg. cbn [szero sadd smul sleb Z_Scalar].
  split; [reflexivity|]. split; [|split].
  - intros a Ha. apply Z.leb_gt in Ha. apply Z.leb_le. lia.
  - intros a b Ha Hb. apply Z.leb_le in Ha. apply Z.leb_le in Hb.
    apply Z.leb_le. lia.
  - intros a b Ha Hb. apply Z.leb_le in Ha. apply Z.leb_le in Hb.
    apply Z.leb_le. nia.
Qed.

Section EdgesOnSampleData.
Import Torch TorchSparse.
Local Open Scope Z_scope.

Lemma init_outcome_witness :
  (exists self,
      SparseNGCNLayer.init Sample.available 3 2 0 (3 # 2) Sample.device
                           Sample.draw_weight Sample.draw_bias
      = Ok self
      /\ SparseNGCNLayer.in_channels self = 3
      /\ SparseNGCNLayer.out_channels self = 2
      /\ SparseNGCNLayer.training self = true
      /\ sparse_params_shaped self
      /\ wf (SparseNGCNLayer.weight_matrix self)
      /\ wf (SparseNGCNLayer.bias self))
  /\ DenseNGCNLayer.init Sample.available 3 (-1) 1 0 Sample.device
                         Sample.draw_weight Sample.draw_bias
     = Err DimensionError
  /\ SparseNGCNLayer.init Sample.available 3 2 1 0 String.EmptyString
                          Sample.draw_weight Sample.draw_bias
     = Err DeviceError
  /\ SparseNGCNLayer.init Sample.available 0 0 1 0 Sample.device
                          Sample.draw_weight Sample.draw_bias
     = Err DimensionError.
Proof.
  split; [|split; [|split]].
  - destruct (init_outcome Sample.available 3 2 0 (3 # 2) Sample.device
                Sample.draw_weight Sample.draw_bias) as [Hok _].
    apply (proj1 (Hok eq_refl eq_refl)).
  - destruct (init_outcome Sample.available 3 (-1) 1 0 Sample.device
                Sample.draw_weight Sample.draw_bias) as [_ [Hneg _]].
    apply Hneg. right. lia.
  - destruct (init_outcome Sample.available 3 2 1 0 String.EmptyString
                Sample.draw_weight Sample.draw_bias) as [_ [_ [Hdev _]]].
    apply Hdev; [lia|lia|reflexivity].
  - destruct (init_outcome Sample.available 0 0 1 0 Sample.device
                Sample.draw_weight Sample.draw_bias) as [_ [_ [_ Hzero]]].
    apply Hzero; reflexivity.
Defined.

(** The rate [3/2] is refused by [forward], in evaluation mode too. *)
Lemma forward_rejects_rate_witness :
  SparseNGCNLayer.forward (Sample.sparse_layer 3 (3 # 2) false) Sample.rng
                          Sample.adjacency Sample.features
  = Err ConfigError
  /\ DenseNGCNLayer.forward (Sample.dense_layer 3 (3 # 2) false) Sample.rng
                            Sample.adjacency Sample.features_dense
     = Err ConfigError.
Proof.
  destruct (@forward_rejects_rate Z Z_Scalar) as [Hs Hd].
  split.
  - apply Hs. split; [reflexivity|].
    exists (mkTensor 4 2 [[11; -18]; [13; -24]; [15; -14]; [12; -16]]).
    reflexivity.
  - apply Hd. split; reflexivity.
Defined.

(** What the sample inputs satisfy, read off a result of [forward]. *)
Lemma sparse_forward_requires_witness :
  exists fc,
    max_dim1 (indices Sample.features) = Ok fc
    /\ snd fc + 1 = Z.of_nat (shape0 Sample.W)
    /\ entries_fit Sample.features (Z.to_nat (fst fc + 1))
                    (shape0 Sample.W) (shape1 Sample.W)
    /\ rate_accepted 0 = true
    /\ (2 <= 3 ->
        entries_fit Sample.adjacency (Z.to_nat (fst fc + 1)) (Z.to_nat (fst fc + 1))
                    (shape1 Sample.W)).
Proof.
  apply (sparse_forward_requires (Sample.sparse_layer 3 0 false) Sample.rng
           Sample.adjacency Sample.features
           (mkTensor 4 2 [[35; 0]; [24; 0]; [15; 0]; [12; 0]])).
  - repeat split.
  - reflexivity.
Defined.

Lemma dense_forward_requires_witness :
  shape1 Sample.features_dense = shape0 Sample.W
  /\ rate_accepted 0 = true
  /\ (2 <= 3 ->
      entries_fit Sample.adjacency (shape0 Sample.features_dense)
                  (shape0 Sample.features_dense) (shape1 Sample.W)).
Proof.
  apply (dense_forward_requires (Sample.dense_layer 3 0 false) Sample.rng
           Sample.adjacency Sample.features_dense
           (mkTensor 4 2 [[15; -20]; [14; -22]; [15; -14]; [12; -16]])).
  reflexivity.
Defined.

Lemma sparse_one_more_iteration_witness :
  SparseNGCNLayer.forward (sparse_with_iterations (Sample.sparse_layer 1 0 false) (2 + 1))
                          Sample.rng Sample.adjacency Sample.features
  = (y <- SparseNGCNLayer.forward (sparse_with_iterations (Sample.sparse_layer 1 0 false) 2)
                                  Sample.rng Sample.adjacency Sample.features ;;
     spmm (indices Sample.adjacency) (values Sample.adjacency)
          (Z.of_nat (shape0 y)) (Z.of_nat (shape0 y)) y).
Proof.
  apply (sparse_one_more_iteration (Sample.sparse_layer 1 0 false) Sample.rng
           Sample.adjacency Sample.features 2).
  lia.
Defined.

Lemma forward_without_edges_witness :
  SparseNGCNLayer.forward (Sample.sparse_layer 3 0 false) Sample.rng
                          Sample.no_edges Sample.features
  = Ok (mkTensor 4 2 [[0; 0]; [0; 0]; [0; 0]; [0; 0]])
  /\ DenseNGCNLayer.forward (Sample.dense_layer 3 0 false) Sample.rng
                            Sample.no_edges Sample.features_dense
     = Ok (mkTensor 4 2 [[10; -20]; [10; -20]; [10; -20]; [10; -20]]).
Proof.
  destruct (@forward_without_edges Z Z_Scalar) as [Hs Hd].
  split.
  - apply (Hs (Sample.sparse_layer 3 0 false) Sample.rng Sample.features). cbn. lia.
  - apply (Hd (Sample.dense_layer 3 0 false) Sample.rng Sample.features_dense).
    + cbn. lia.
    + repeat split.
    + reflexivity.
    + reflexivity.
Defined.

Lemma sparse_output_nonnegative_witness :
  nonneg (get (mkTensor 4 2 [[35; 0]; [24; 0]; [15; 0]; [12; 0]]) 3 1).
Proof.
  apply (sparse_output_nonnegative (Sample.sparse_layer 3 0 false) Sample.rng
           Sample.adjacency Sample.features
           (mkTensor 4 2 [[35; 0]; [24; 0]; [15; 0]; [12; 0]]) Z_OrderLaws).
  - repeat constructor.
  - reflexivity.
  - cbn. lia.
  - cbn. lia.
Defined.

(** The text shows the channel counts and not the iteration count. *)
Lemma repr_determines_class_and_channels_witness :
  SparseNGCNLayer.in_channels (Sample.sparse_layer 1 0 false)
  = SparseNGCNLayer.in_channels (Sample.sparse_layer 5 (1 # 2) true)
  /\ SparseNGCNLayer.out_channels (Sample.sparse_layer 1 0 false)
     = SparseNGCNLayer.out_channels (Sample.sparse_layer 5 (1 # 2) true).
Proof.
  apply (proj1 (@repr_determines_class_and_channels Z)).
  reflexivity.
Defined.

(** Node [1] of [features_gap] has no feature: its row is ReLU of the
    bias [[10; -20]]. *)
Lemma sparse_row_without_features_witness :
  get (mkTensor 4 2 [[11; 0]; [10; 0]; [15; 0]; [13; 0]]) 1 0 = 10
  /\ get (mkTensor 4 2 [[11; 0]; [10; 0]; [15; 0]; [13; 0]]) 1 1 = 0.
Proof.
  assert (Hrow : forall e, In e (indices Sample.features_gap) -> fst e <> Z.of_nat 1).
  { intros e [<-|[<-|[<-|[]]]]; discriminate. }
  split.
  - apply (sparse_row_without_features (Sample.sparse_layer 1 0 false) Sample.rng
             Sample.adjacency Sample.features_gap
             (mkTensor 4 2 [[11; 0]; [10; 0]; [15; 0]; [13; 0]]) 1%nat 0%nat
             ltac:(repeat split)).
    + cbn. lia.
    + reflexivity.
    + reflexivity.
    + exact Hrow.
    + cbn. lia.
    + cbn. lia.
  - apply (sparse_row_without_features (Sample.sparse_layer 1 0 false) Sample.rng
             Sample.adjacency Sample.features_gap
             (mkTensor 4 2 [[11; 0]; [10; 0]; [15; 0]; [13; 0]]) 1%nat 1%nat
             ltac:(repeat split)).
    + cbn. lia.
    + reflexivity.
    + reflexivity.
    + exact Hrow.
    + cbn. lia.
    + cbn. lia.
Defined.

End EdgesOnSampleData.
